(** * pygunshot: anechoic gunshot synthesis

    A shallow embedding of the pygunshot package (modules [util], [nwave],
    [muzzleblast] and [process]) and the properties of its geometry, of its
    two waveform generators and of the composer.

    Numbers.  The package computes with binary64 floats.  They are
    idealised here as real numbers: rounding, overflow and the sign of
    zero are not modelled.  What is modelled is the distinction the code
    depends on between

    - a Python [float], on which a division by zero raises
      [ZeroDivisionError]; it is a real number [R] here, and
    - a NumPy [float64], on which division by zero and functions taken
      outside their domain return [inf] or [nan] (with a warning) and the
      computation goes on; it is an [npfloat] here.

    Where rounding decides what the code returns, the function is embedded
    a second time on binary64 numbers themselves (module [binary64]). *)

From Stdlib Require Import Reals Lra Lia ZArith List Bool.
From Stdlib Require String PrimFloat.
Import String.StringSyntax.
Import ListNotations.

Local Open Scope R_scope.
Delimit Scope string_scope with string.
Bind Scope string_scope with String.string.

(** ** Outcome of a Python call *)

Inductive pyexn : Type :=
| ZeroDivisionError
| ValueError.

Inductive result (A : Type) : Type :=
| Returns (a : A)
| Raises (e : pyexn).

Arguments Returns {A} a.
Arguments Raises {A} e.

Definition bind {A B : Type} (m : result A) (k : A -> result B) : result B :=
  match m with
  | Returns a => k a
  | Raises e => Raises e
  end.

Notation "x <- m ;; k" := (bind m (fun x => k))
  (at level 61, m at next level, right associativity).
Notation "' p <- m ;; k" := (bind m (fun p => k))
  (at level 61, p pattern, m at next level, right associativity).

(** A [for] loop that stores [f x] for every [x] of a list, in order; the
    first exception ends it. *)
Fixpoint mapM {A B : Type} (f : A -> result B) (l : list A) : result (list B) :=
  match l with
  | [] => Returns []
  | x :: l' => y <- f x ;; ys <- mapM f l' ;; Returns (y :: ys)
  end.

(** ** Comparisons of reals as booleans *)

Definition Rltb (x y : R) : bool := if Rlt_dec x y then true else false.
Definition Rleb (x y : R) : bool := if Rle_dec x y then true else false.
Definition Reqb (x y : R) : bool := if Req_dec_T x y then true else false.

(** ** NumPy [float64] scalars *)

Inductive npfloat : Type :=
| Finite (x : R)
| PInf
| NInf
| NaN.

Module np.

Definition neg (a : npfloat) : npfloat :=
  match a with
  | Finite x => Finite (- x)
  | PInf => NInf
  | NInf => PInf
  | NaN => NaN
  end.

Definition add (a b : npfloat) : npfloat :=
  match a, b with
  | NaN, _ | _, NaN => NaN
  | Finite x, Finite y => Finite (x + y)
  | PInf, NInf | NInf, PInf => NaN
  | PInf, _ | _, PInf => PInf
  | NInf, _ | _, NInf => NInf
  end.

Definition sub (a b : npfloat) : npfloat := add a (neg b).

(** [inf] carrying the sign of [x], and [nan] for [x = 0]. *)
Definition signed_inf (x : R) : npfloat :=
  if Reqb x 0 then NaN else if Rltb 0 x then PInf else NInf.

Definition mul (a b : npfloat) : npfloat :=
  match a, b with
  | NaN, _ | _, NaN => NaN
  | Finite x, Finite y => Finite (x * y)
  | Finite x, PInf | PInf, Finite x => signed_inf x
  | Finite x, NInf | NInf, Finite x => signed_inf (- x)
  | PInf, PInf | NInf, NInf => PInf
  | PInf, NInf | NInf, PInf => NInf
  end.

(** Division: [x / 0] is [nan] for [x = 0] and an infinity of the sign of
    [x] otherwise (the zero divisor taken as [+0]); a finite number over
    an infinity is [0]. *)
Definition div (a b : npfloat) : npfloat :=
  match a, b with
  | NaN, _ | _, NaN => NaN
  | Finite x, Finite y => if Reqb y 0 then signed_inf x else Finite (x / y)
  | Finite _, (PInf | NInf) => Finite 0
  | PInf, Finite y => if Rltb y 0 then NInf else PInf
  | NInf, Finite y => if Rltb y 0 then PInf else NInf
  | (PInf | NInf), (PInf | NInf) => NaN
  end.

Definition lt (a b : npfloat) : bool :=
  match a, b with
  | NaN, _ | _, NaN => false
  | Finite x, Finite y => Rltb x y
  | NInf, (Finite _ | PInf) => true
  | Finite _, PInf => true
  | _, _ => false
  end.

Definition le (a b : npfloat) : bool :=
  match a, b with
  | NaN, _ | _, NaN => false
  | Finite x, Finite y => Rleb x y
  | NInf, _ => true
  | _, PInf => true
  | _, _ => false
  end.

Definition gt (a b : npfloat) : bool := lt b a.

Definition sqrt (a : npfloat) : npfloat :=
  match a with
  | Finite x => if Rltb x 0 then NaN else Finite (R_sqrt.sqrt x)
  | PInf => PInf
  | NInf | NaN => NaN
  end.

Definition log (a : npfloat) : npfloat :=
  match a with
  | Finite x => if Rltb x 0 then NaN else if Reqb x 0 then NInf else Finite (ln x)
  | PInf => PInf
  | NInf | NaN => NaN
  end.

Definition exp (a : npfloat) : npfloat :=
  match a with
  | Finite x => Finite (Rtrigo_def.exp x)
  | PInf => PInf
  | NInf => Finite 0
  | NaN => NaN
  end.

Definition sin (a : npfloat) : npfloat :=
  match a with
  | Finite x => Finite (Rtrigo_def.sin x)
  | _ => NaN
  end.

Definition cos (a : npfloat) : npfloat :=
  match a with
  | Finite x => Finite (Rtrigo_def.cos x)
  | _ => NaN
  end.

Definition arcsin (a : npfloat) : npfloat :=
  match a with
  | Finite x => if Rleb (-1) x && Rleb x 1 then Finite (asin x) else NaN
  | _ => NaN
  end.

Definition arccos (a : npfloat) : npfloat :=
  match a with
  | Finite x => if Rleb (-1) x && Rleb x 1 then Finite (acos x) else NaN
  | _ => NaN
  end.

(** [np.power(a, y)] for the exponents the package uses, which are
    positive and not integers (0.125, 0.25, 0.375, 0.75): a negative base
    gives [nan]. *)
Definition power (a : npfloat) (y : R) : npfloat :=
  match a with
  | Finite x =>
      if Rltb x 0 then NaN
      else if Reqb x 0 then Finite 0
      else Finite (Rpower x y)
  | PInf | NInf => PInf
  | NaN => NaN
  end.

(** [np.power(a, 2)] and [a ** 2]. *)
Definition square (a : npfloat) : npfloat := mul a a.

Definition pi : R := PI.

(** [int(x)]: truncation toward zero. *)
Definition int (x : R) : Z := if Rleb 0 x then Zfloor x else Zceil x.

(** [np.linspace(start, stop, num)] where [num] may be a float, which
    NumPy truncates with [int]: [num] points from [start] to [stop], both
    ends included.  A negative [num] is a [ValueError]. *)
Definition linspace (start stop num : R) : result (list npfloat) :=
  let n := int num in
  if (n <? 0)%Z then Raises ValueError
  else
    let n := Z.to_nat n in
    let step := if (n <=? 1)%nat then 0 else (stop - start) / INR (n - 1) in
    Returns (map (fun i => Finite (start + INR i * step)) (seq 0 n)).

Definition zeros (n : nat) : list npfloat := repeat (Finite 0) n.

(** [a + b] on arrays of the same length. *)
Fixpoint add_arrays (a b : list npfloat) : list npfloat :=
  match a, b with
  | x :: a', y :: b' => add x y :: add_arrays a' b'
  | _, _ => []
  end.

(** [abs(a)]. *)
Definition abs (a : npfloat) : npfloat :=
  match a with
  | Finite x => Finite (Rabs x)
  | PInf | NInf => PInf
  | NaN => NaN
  end.

(** The greater of two numbers; a [nan] wins. *)
Definition maximum (a b : npfloat) : npfloat :=
  match a, b with
  | NaN, _ | _, NaN => NaN
  | _, _ => if lt a b then b else a
  end.

(** [a.max()]: the reduction of a non-empty array by [maximum], and a
    [ValueError] on an empty one. *)
Definition amax (a : list npfloat) : result npfloat :=
  match a with
  | [] => Raises ValueError
  | x :: a' => Returns (fold_left maximum a' x)
  end.

End np.

(** ** Python dictionaries with string keys *)

(** The values the package stores: a float, a list of floats (an array
    after [tolist()]) or a string. *)
Inductive pyval : Type :=
| VFloat (x : R)
| VList (l : list R)
| VStr (s : String.string).

Definition dict : Type := list (String.string * pyval).

(** The outcome of [d[k]]. *)
Inductive lookup (A : Type) : Type :=
| Found (a : A)
| KeyError (k : String.string).

Arguments Found {A} a.
Arguments KeyError {A} k.

Definition lookup_bind {A B : Type} (m : lookup A) (f : A -> lookup B)
  : lookup B :=
  match m with
  | Found a => f a
  | KeyError k => KeyError k
  end.

Fixpoint dict_get (d : dict) (k : String.string) : lookup pyval :=
  match d with
  | [] => KeyError k
  | (k', v) :: d' => if String.eqb k k' then Found v else dict_get d' k
  end.

(** [d[k] = v]: a present key keeps its place, a new one goes last. *)
Fixpoint dict_set (d : dict) (k : String.string) (v : pyval) : dict :=
  match d with
  | [] => [(k, v)]
  | (k', v') :: d' =>
      if String.eqb k k' then (k, v) :: d' else (k', v') :: dict_set d' k v
  end.

(** ** Vectors *)

Definition vec3 : Type := (R * R * R)%type.
Definition npvec3 : Type := (npfloat * npfloat * npfloat)%type.

Definition vsub (a b : vec3) : vec3 :=
  let '(a0, a1, a2) := a in
  let '(b0, b1, b2) := b in
  (a0 - b0, a1 - b1, a2 - b2).

Definition dot (a b : vec3) : R :=
  let '(a0, a1, a2) := a in
  let '(b0, b1, b2) := b in
  a0 * b0 + a1 * b1 + a2 * b2.

(** [np.dot] of a finite vector and a [float64] vector. *)
Definition np_dot (a : vec3) (b : npvec3) : npfloat :=
  let '(a0, a1, a2) := a in
  let '(b0, b1, b2) := b in
  np.add (np.add (np.mul (Finite a0) b0) (np.mul (Finite a1) b1))
         (np.mul (Finite a2) b2).

(** [v / s] for an array [v] and a [float64] scalar [s]. *)
Definition np_vdiv (a : vec3) (s : npfloat) : npvec3 :=
  let '(a0, a1, a2) := a in
  (np.div (Finite a0) s, np.div (Finite a1) s, np.div (Finite a2) s).

(** ** util.py *)

Module util.

Definition convertPressureToPascals (mpressure : R) : R :=
  let ppas := 98066.5 * mpressure in
  ppas.

(** [r] is [np.linalg.norm(xmic - xgun)], and the quotient that
    [np.arccos] receives is a [float64] division. *)
Definition computeGeometry (xmic xgun : vec3) : npfloat * npfloat :=
  let r := np.sqrt (Finite (dot (vsub xmic xgun) (vsub xmic xgun))) in
  let theta :=
    np.arccos (np.div (Finite (dot (vsub xmic xgun) (0, 1.0, 0))) r) in
  (r, theta).

Definition caliberToM (cal : R) : R * R :=
  let diam := cal * 0.0254 in
  let rad := diam / 2 in
  let Ae := rad ^ 2 * np.pi in
  (diam, Ae).

(** [recordWave] normalises the signal and hands it to [wav.write]; the
    model returns the samples that are written. *)
Definition recordWave (sig : list npfloat) : result (list npfloat) :=
  let siga := map np.abs sig in
  m <- np.amax siga ;;
  let sig := map (fun x => np.div x m) sig in
  Returns sig.

Definition packGeometry (xgun xmic ngun : list R) (label : String.string)
  : dict :=
  let geomDict := [] in
  let geomDict := dict_set geomDict "xgun" (VList xgun) in
  let geomDict := dict_set geomDict "xmic" (VList xmic) in
  let geomDict := dict_set geomDict "ngun" (VList ngun) in
  let geomDict := dict_set geomDict "label" (VStr label) in
  geomDict.

(** [np.array] of a stored value raises nothing; the value is kept. *)
Definition unpackGeometry (geomDict : dict)
  : lookup (pyval * pyval * pyval * pyval) :=
  lookup_bind (dict_get geomDict "xgun") (fun xgun =>
  lookup_bind (dict_get geomDict "xmic") (fun xmic =>
  lookup_bind (dict_get geomDict "ngun") (fun ngun =>
  lookup_bind (dict_get geomDict "label") (fun label =>
  Found (label, xgun, xmic, ngun))))).

Definition packBallistics (bulletDiam bulletLen barrelLength pexit uexit : R)
  (gunlabel ammolabel : String.string) : dict :=
  let ballistDict := [] in
  let ballistDict := dict_set ballistDict "bulletDiam" (VFloat bulletDiam) in
  let ballistDict := dict_set ballistDict "bulletLen" (VFloat bulletLen) in
  let ballistDict := dict_set ballistDict "barrelLength" (VFloat barrelLength) in
  let ballistDict := dict_set ballistDict "pexit" (VFloat pexit) in
  let ballistDict := dict_set ballistDict "uexit" (VFloat uexit) in
  let ballistDict := dict_set ballistDict "gunlabel" (VStr gunlabel) in
  let ballistDict := dict_set ballistDict "ammolabel" (VStr ammolabel) in
  ballistDict.

Definition unpackBallistics (ballistDict : dict)
  : lookup (pyval * pyval * pyval * pyval * pyval * pyval * pyval) :=
  lookup_bind (dict_get ballistDict "bulletDiam") (fun bulletDiam =>
  lookup_bind (dict_get ballistDict "bulletLen") (fun bulletLen =>
  lookup_bind (dict_get ballistDict "barrelLength") (fun barrelLength =>
  lookup_bind (dict_get ballistDict "pexit") (fun pexit =>
  lookup_bind (dict_get ballistDict "uexit") (fun uexit =>
  lookup_bind (dict_get ballistDict "gunlabel") (fun gunlabel =>
  lookup_bind (dict_get ballistDict "ammolabel") (fun ammolabel =>
  Found (gunlabel, ammolabel, bulletDiam, bulletLen, barrelLength, pexit,
         uexit)))))))).

End util.

(** ** nwave.py *)

Module nwave.

Definition MachNumber (v : R) : R :=
  let csnd := 341.0 in
  let M := v / csnd in
  M.

(** [1.0/M] divides two Python floats. *)
Definition coneAngle (M : R) : result npfloat :=
  if Reqb M 0 then Raises ZeroDivisionError
  else
    let theta := np.arcsin (Finite (1.0 / M)) in
    Returns theta.

(** On real numbers the radicand [dvec^2 - dlin^2] is never negative for a
    non-zero [ngun]; on binary64 numbers rounding can make it negative,
    see [binary64.missDistance]. *)
Definition missDistance (xgun ngun xmic : vec3) : npfloat * npfloat :=
  let mvec := vsub xmic xgun in
  let dvec := np.sqrt (Finite (dot mvec mvec)) in
  let ngun' := np_vdiv ngun (np.sqrt (Finite (dot ngun ngun))) in
  let dlin := np_dot mvec ngun' in
  let dmis := np.sqrt (np.sub (np.square dvec) (np.square dlin)) in
  (dmis, dlin).

Definition nWaveOverPressure (v d l : R) (x : npfloat) : npfloat :=
  let P0 := 101.0e3 in
  let M := MachNumber v in
  let delP :=
    np.mul
      (np.div
         (np.mul (Finite (0.53 * d))
            (np.power (np.sub (np.square (Finite M)) (Finite 1)) 0.125))
         (np.mul (np.power x 0.75) (np.power (Finite l) 0.25)))
      (Finite P0) in
  delP.

Definition nWaveDuration (v d l : R) (x : npfloat) : npfloat :=
  let cs := 341.0 in
  let M := MachNumber v in
  let L :=
    np.div
      (np.mul (Finite (1.82 * d)) (np.mul (Finite M) (np.power x 0.25)))
      (np.mul (np.power (np.sub (np.square (Finite M)) (Finite 1)) 0.375)
              (np.power (Finite l) 0.25)) in
  let Td := np.div L (Finite cs) in
  Td.

Definition nWaveTimeOfArrival (v : R) (xgun ngun xmic : vec3)
  : result npfloat :=
  let cs := 341.0 in
  let M := MachNumber v in
  th <- coneAngle M ;;
  let '(dmis, dlin) := missDistance xgun ngun xmic in
  let ta :=
    np.add (np.div (np.mul (np.cos th) dmis) (Finite cs))
           (np.div dlin (Finite v)) in
  Returns ta.

Definition nWaveRiseTime (pmax : npfloat) : npfloat :=
  let lamb := 68.0e-9 in
  let P0 := 101.0e3 in
  let cs := 341.0 in
  let trise := np.div (Finite (lamb / cs * P0)) pmax in
  trise.

Definition nWave (xgun ngun xmic : vec3) (v d l : R) (x t : npfloat)
  : result npfloat :=
  let pmax := nWaveOverPressure v d l x in
  ta <- nWaveTimeOfArrival v xgun ngun xmic ;;
  let Td := nWaveDuration v d l x in
  let tr := nWaveRiseTime pmax in
  let wv :=
    if np.lt t ta then
      Finite 0
    else if np.le t (np.add ta tr) && np.gt t ta then
      np.mul (np.div (np.sub t ta) tr) pmax
    else if np.le t (np.sub (np.add ta Td) tr) && np.gt t (np.add ta tr) then
      np.mul
        (np.sub (Finite 1)
           (np.div (np.mul (Finite 2) (np.sub (np.sub t ta) tr))
                   (np.sub Td (np.mul (Finite 2) tr))))
        pmax
    else if np.le t (np.add ta Td) && np.gt t (np.sub (np.add ta Td) tr) then
      np.mul
        (np.add (Finite (-1.0))
           (np.div (np.add (np.sub (np.sub t ta) Td) tr) tr))
        pmax
    else
      Finite 0 in
  Returns wv.

Definition calculateNWave (xgun ngun xmic : vec3) (v d l : R) (x : npfloat)
  (dur Fs : R) : result (list npfloat) :=
  t <- np.linspace 0 dur (dur * Fs) ;;
  wv <- mapM (fun ti => nWave xgun ngun xmic v d l x ti) t ;;
  Returns wv.

End nwave.

(** ** nwave.py on binary64 numbers *)

(** [missDistance] once more, on the IEEE 754 binary64 numbers the program
    computes with (rounding to nearest, ties to even).  [np.dot] adds its
    three products from left to right, [np.power(., 2)] is one
    multiplication, and [np.sqrt] of a negative number is [nan]. *)
Module binary64.

Import PrimFloat.
Local Open Scope float_scope.

Definition array3 : Set := (float * float * float)%type.

Definition sub3 (a b : array3) : array3 :=
  let '(a0, a1, a2) := a in
  let '(b0, b1, b2) := b in
  (a0 - b0, a1 - b1, a2 - b2).

Definition dot (a b : array3) : float :=
  let '(a0, a1, a2) := a in
  let '(b0, b1, b2) := b in
  a0 * b0 + a1 * b1 + a2 * b2.

Definition div3 (a : array3) (s : float) : array3 :=
  let '(a0, a1, a2) := a in
  (a0 / s, a1 / s, a2 / s).

Definition missDistance (xgun ngun xmic : array3) : float * float :=
  let mvec := sub3 xmic xgun in
  let dvec := sqrt (dot mvec mvec) in
  let ngun := div3 ngun (sqrt (dot ngun ngun)) in
  let dlin := dot mvec ngun in
  let dmis := sqrt (dvec * dvec - dlin * dlin) in
  (dmis, dlin).

End binary64.

(** ** muzzleblast.py *)

Module muzzleblast.

Definition friedlander (t ta tau Pp : npfloat) : npfloat :=
  let pinf := 101.0e3 in
  let ainf := 341.0 in
  if np.lt t ta then
    Finite 0
  else
    np.mul
      (np.mul
         (np.mul
            (np.mul Pp (np.sub (Finite 1) (np.div (np.sub t ta) tau)))
            (np.exp (np.div (np.neg (np.sub t ta)) tau)))
         (Finite pinf))
      (Finite ainf).

Definition muzzleblast (tarr : list npfloat) (ta tau Pp : npfloat)
  : list npfloat :=
  map (fun t => friedlander t ta tau Pp) tarr.

(** [gammae], [pe], [ue] and [Ae] are Python floats, so the division by
    [gammae-1] is a Python division. *)
Definition scalinglength (gammae pe ue Ae : R) (mu theta : npfloat)
  : result (npfloat * npfloat) :=
  let pinf := 101.0e3 in
  let peb := pe / pinf in
  let ainf := 341.0 in
  let Me := nwave.MachNumber ue in
  if Reqb (gammae - 1) 0 then Raises ZeroDivisionError
  else
    let dEdt :=
      (gammae * peb * ue) / (gammae - 1) * (1 + (gammae - 1) / 2 * Me ^ 2) * Ae in
    let l := np.sqrt (Finite (dEdt / (pinf * ainf))) in
    let ratio :=
      np.add (np.mul mu (np.cos theta))
             (np.sqrt (np.sub (Finite 1)
                         (np.mul (np.square mu) (np.square (np.sin theta))))) in
    let lp := np.mul (np.mul l ratio) (Finite 10) in
    Returns (l, lp).

Definition momentumindex (M pe gamma : R) : npfloat :=
  let pe := util.convertPressureToPascals pe in
  let pe := pe / 101e3 in
  let xmod := np.mul (Finite M) (np.sqrt (Finite (gamma * pe / 2))) in
  let mu := np.sub (Finite 0.87) (np.mul (Finite 0.01) xmod) in
  mu.

Definition peakOverpressure (r lp : npfloat) : npfloat :=
  let rb := np.div r lp in
  let Pb :=
    if np.lt rb (Finite 50) then
      np.add (np.mul (Finite 0.89) (np.div lp r))
             (np.mul (Finite 1.61) (np.square (np.div lp r)))
    else
      np.div (Finite 3.48975)
             (np.mul rb (np.sqrt (np.log (np.mul (Finite 33119.0) rb)))) in
  np.div Pb (Finite 100).

Definition timeOfArrival (r lp : npfloat) : npfloat :=
  let ainf := 341.0 in
  let rb := np.div r lp in
  let X :=
    np.sqrt (np.add (np.add (np.square rb) (np.mul (Finite 1.04) rb))
                    (Finite 1.88)) in
  let tab :=
    np.sub
      (np.sub X
         (np.mul (Finite 0.52)
            (np.log (np.add (np.add (np.mul (Finite 2) X) (np.mul (Finite 2) rb))
                            (Finite 1.04)))))
      (Finite 0.56) in
  let ta := np.div (np.mul lp tab) (Finite ainf) in
  ta.

Definition positivePhaseDuration (r lp l : npfloat) (L Vp : R) : npfloat :=
  let ainf := 341.0 in
  let rb := np.div r lp in
  let X :=
    np.sqrt (np.add (np.add (np.square rb) (np.mul (Finite 1.04) rb))
                    (Finite 1.88)) in
  let delta := np.div (Finite (L * ainf)) (np.mul (Finite Vp) l) in
  let G :=
    np.add
      (np.sub (Finite 0.09) (np.mul (Finite 0.00379) delta))
      (np.div
         (np.mul
            (np.mul (Finite 1.07)
               (np.sub (Finite 1)
                  (np.mul (Finite 1.36) (np.exp (np.mul (Finite (-0.049)) rb)))))
            l)
         lp) in
  let tb :=
    if np.lt rb (Finite 50) then
      np.add
        (np.add
           (np.add (np.sub rb X)
              (np.mul (Finite 0.52)
                 (np.log (np.add (np.add (np.mul (Finite 2) X)
                                         (np.mul (Finite 2) rb))
                                 (Finite 1.04)))))
           (Finite 0.56))
        G
    else
      np.add
        (np.sub
           (np.mul (Finite 2.99)
              (np.sqrt (np.log (np.mul (Finite 33119.0) rb))))
           (Finite 8.534))
        G in
  let t := np.div (np.mul tb lp) (Finite ainf) in
  t.

Definition calculatemuzzleblast (gammae pe ue Ae : R) (mu theta r : npfloat)
  (d Lm Vp duration Fs : R) : result (list npfloat * list npfloat) :=
  let pe := util.convertPressureToPascals pe in
  let L := Lm in
  t <- np.linspace 0 duration (duration * Fs) ;;
  '(l, lp) <- scalinglength gammae pe ue Ae mu theta ;;
  let ta := timeOfArrival r lp in
  let tau := positivePhaseDuration r lp l L Vp in
  let Pb := peakOverpressure r lp in
  let Pmb := muzzleblast t ta tau Pb in
  Returns (Pmb, t).

End muzzleblast.

(** ** process.py *)

Module process.

Definition _getAnechoicGunshot (xmic xgun ngun : vec3)
  (bulletDiam bulletLen barrelLength pexit uexit duration Fs : R)
  : result (list npfloat * list npfloat * list npfloat) :=
  let gammae := 1.24 in
  let '(r, theta) := util.computeGeometry xmic xgun in
  let Ae := (bulletDiam / 2) ^ 2 * np.pi in
  let M := nwave.MachNumber uexit in
  let mu := muzzleblast.momentumindex M pexit gammae in
  let Vp := uexit in
  let Lm := barrelLength in
  let d := bulletDiam in
  let l := bulletLen in
  let xmiss := np.mul r (np.sin theta) in
  '(Pmb, t) <- muzzleblast.calculatemuzzleblast gammae pexit uexit Ae mu theta
                 r d Lm Vp duration Fs ;;
  let sig := Pmb in
  thM <- nwave.coneAngle uexit ;;
  let Pnw := np.zeros (length sig) in
  if Rltb 341.0 uexit && np.lt theta (np.sub (Finite np.pi) thM) then
    Pnw <- nwave.calculateNWave xgun ngun xmic uexit d l xmiss duration Fs ;;
    let sig := np.add_arrays Pmb Pnw in
    Returns (sig, Pmb, Pnw)
  else
    Returns (sig, Pmb, Pnw).

Record geomDict : Type := {
  xgun : vec3;
  xmic : vec3;
  ngun : vec3
}.

Record ballistDict : Type := {
  bulletDiam : R;
  bulletLen : R;
  barrelLength : R;
  pexit : R;
  uexit : R
}.

Definition getGunShot (g : geomDict) (b : ballistDict) (duration Fs : R)
  : result (list npfloat * list npfloat * list npfloat) :=
  _getAnechoicGunshot (xmic g) (xgun g) (ngun g)
    (bulletDiam b) (bulletLen b) (barrelLength b) (pexit b) (uexit b)
    duration Fs.

End process.

(** ** Definitions that follow the specification's words *)

Module spec.

(** Rounding to the nearest integer, halves upward. *)
Definition round (x : R) : Z := Zfloor (x + 1 / 2).

(** The four-segment N-wave of the specification. *)
Definition nwave_sample (pmax ta tr Td t : R) : R :=
  if Rltb t ta then 0
  else if Rleb t (ta + tr) then (t - ta) / tr * pmax
  else if Rleb t (ta + Td - tr) then (1 - 2 * (t - ta - tr) / (Td - 2 * tr)) * pmax
  else if Rleb t (ta + Td) then (-1 + (t - ta - Td + tr) / tr) * pmax
  else 0.

(** Euclidean norm. *)
Definition norm (a : vec3) : R := sqrt (dot a a).

End spec.

(** The real number a finite [float64] stands for. *)
Definition real_of (a : npfloat) : R :=
  match a with
  | Finite x => x
  | _ => 0
  end.

(** The projection of [m] on the unit vector along [n], as [missDistance]
    computes it. *)
Definition projection (m n : vec3) : R :=
  let '(m0, m1, m2) := m in
  let '(n0, n1, n2) := n in
  m0 * (n0 / spec.norm n) + m1 * (n1 / spec.norm n) + m2 * (n2 / spec.norm n).

(** The sonic-boom test of [_getAnechoicGunshot]. *)
Definition gate (uexit : R) (theta thM : npfloat) : bool :=
  Rltb 341.0 uexit && np.lt theta (np.sub (Finite np.pi) thM).

(** [friedlander] as a function of the time alone. *)
Definition friedlander_at (ta tau Pp : R) (t : R) : R :=
  real_of (muzzleblast.friedlander (Finite t) (Finite ta) (Finite tau) (Finite Pp)).

(** ** Boolean comparisons *)

Lemma Rltb_true (x y : R) : x < y -> Rltb x y = true.
Proof. intros H; unfold Rltb; destruct (Rlt_dec x y); [reflexivity | contradiction]. Qed.

Lemma Rltb_false (x y : R) : y <= x -> Rltb x y = false.
Proof. intros H; unfold Rltb; destruct (Rlt_dec x y); [lra | reflexivity]. Qed.

Lemma Rleb_true (x y : R) : x <= y -> Rleb x y = true.
Proof. intros H; unfold Rleb; destruct (Rle_dec x y); [reflexivity | contradiction]. Qed.

Lemma Rleb_false (x y : R) : y < x -> Rleb x y = false.
Proof. intros H; unfold Rleb; destruct (Rle_dec x y); [lra | reflexivity]. Qed.

Lemma Reqb_true (x y : R) : x = y -> Reqb x y = true.
Proof. intros H; unfold Reqb; destruct (Req_dec_T x y); [reflexivity | contradiction]. Qed.

Lemma Reqb_false (x y : R) : x <> y -> Reqb x y = false.
Proof. intros H; unfold Reqb; destruct (Req_dec_T x y); [contradiction | reflexivity]. Qed.

Lemma Rltb_spec (x y : R) : Rltb x y = true <-> x < y.
Proof.
  unfold Rltb; destruct (Rlt_dec x y); split; intros;
    (assumption || reflexivity || discriminate || contradiction).
Qed.

(** *** Operations on finite numbers *)

Lemma add_finite (x y : R) : np.add (Finite x) (Finite y) = Finite (x + y).
Proof. reflexivity. Qed.

Lemma neg_finite (x : R) : np.neg (Finite x) = Finite (- x).
Proof. reflexivity. Qed.

Lemma sub_finite (x y : R) : np.sub (Finite x) (Finite y) = Finite (x - y).
Proof. reflexivity. Qed.

Lemma mul_finite (x y : R) : np.mul (Finite x) (Finite y) = Finite (x * y).
Proof. reflexivity. Qed.

Lemma square_finite (x : R) : np.square (Finite x) = Finite (x * x).
Proof. reflexivity. Qed.

Lemma exp_finite (x : R) : np.exp (Finite x) = Finite (exp x).
Proof. reflexivity. Qed.

Lemma sin_finite (x : R) : np.sin (Finite x) = Finite (sin x).
Proof. reflexivity. Qed.

Lemma cos_finite (x : R) : np.cos (Finite x) = Finite (cos x).
Proof. reflexivity. Qed.

Lemma lt_finite (x y : R) : np.lt (Finite x) (Finite y) = Rltb x y.
Proof. reflexivity. Qed.

Lemma le_finite (x y : R) : np.le (Finite x) (Finite y) = Rleb x y.
Proof. reflexivity. Qed.

Lemma gt_finite (x y : R) : np.gt (Finite x) (Finite y) = Rltb y x.
Proof. reflexivity. Qed.

Lemma div_finite (x y : R) : y <> 0 -> np.div (Finite x) (Finite y) = Finite (x / y).
Proof. intros H; simpl; rewrite (Reqb_false y 0 H); reflexivity. Qed.

Lemma sqrt_finite (x : R) : 0 <= x -> np.sqrt (Finite x) = Finite (sqrt x).
Proof. intros H; simpl; rewrite Rltb_false by assumption; reflexivity. Qed.

Lemma power_finite (x y : R) : 0 < x -> np.power (Finite x) y = Finite (Rpower x y).
Proof.
  intros H; simpl; rewrite Rltb_false by lra.
  rewrite Reqb_false by lra; reflexivity.
Qed.

Lemma add_zero_r (a : npfloat) : np.add a (Finite 0) = a.
Proof. destruct a; simpl; try reflexivity. now rewrite Rplus_0_r. Qed.

Arguments np.add : simpl never.
Arguments np.neg : simpl never.
Arguments np.sub : simpl never.
Arguments np.mul : simpl never.
Arguments np.div : simpl never.
Arguments np.square : simpl never.
Arguments np.exp : simpl never.
Arguments np.sin : simpl never.
Arguments np.cos : simpl never.
Arguments np.lt : simpl never.
Arguments np.le : simpl never.
Arguments np.gt : simpl never.
Arguments np.sqrt : simpl never.
Arguments np.log : simpl never.
Arguments np.power : simpl never.
Arguments np.arcsin : simpl never.
Arguments np.arccos : simpl never.

(** Compute with finite numbers; [tac] proves the side conditions. *)
Ltac np_finite_with tac :=
  repeat first
    [ rewrite add_finite | rewrite neg_finite | rewrite sub_finite
    | rewrite mul_finite | rewrite square_finite | rewrite exp_finite
    | rewrite sin_finite | rewrite cos_finite
    | rewrite lt_finite | rewrite le_finite | rewrite gt_finite
    | rewrite div_finite by tac
    | rewrite sqrt_finite by tac
    | rewrite power_finite by tac ].

Ltac np_finite := np_finite_with lra.

(** ** The Friedlander wave *)

Lemma friedlander_before (t ta tau Pp : R) :
  t < ta ->
  muzzleblast.friedlander (Finite t) (Finite ta) (Finite tau) (Finite Pp)
  = Finite 0.
Proof.
  intros Ht; unfold muzzleblast.friedlander.
  rewrite lt_finite. now rewrite Rltb_true.
Qed.

Lemma friedlander_from (t ta tau Pp : R) :
  tau <> 0 -> ta <= t ->
  muzzleblast.friedlander (Finite t) (Finite ta) (Finite tau) (Finite Pp)
  = Finite (Pp * (1 - (t - ta) / tau) * exp (- (t - ta) / tau) * 101.0e3 * 341.0).
Proof.
  intros Htau Ht; unfold muzzleblast.friedlander.
  rewrite lt_finite, Rltb_false by assumption.
  np_finite_with assumption. reflexivity.
Qed.

(** C5: for [tau > 0], [friedlander] returns exactly 0 before the arrival
    time [ta], and [Pp*(1-(t-ta)/tau)*exp(-(t-ta)/tau)*pinf*ainf], with
    [pinf = 101.0e3] and [ainf = 341.0], from [ta] on. *)
Theorem friedlander_cases (t ta tau Pp : R) :
  0 < tau ->
  (t < ta ->
   muzzleblast.friedlander (Finite t) (Finite ta) (Finite tau) (Finite Pp)
   = Finite 0) /\
  (ta <= t ->
   muzzleblast.friedlander (Finite t) (Finite ta) (Finite tau) (Finite Pp)
   = Finite (Pp * (1 - (t - ta) / tau) * exp (- (t - ta) / tau) * 101.0e3 * 341.0)).
Proof.
  intros Htau; split; intros Ht.
  - now apply friedlander_before.
  - apply friedlander_from; [lra | assumption].
Qed.

Lemma friedlander_cases_witness :
  muzzleblast.friedlander (Finite 0) (Finite 1) (Finite 2) (Finite 3) = Finite 0 /\
  muzzleblast.friedlander (Finite 1) (Finite 1) (Finite 2) (Finite 3)
  = Finite (3 * (1 - (1 - 1) / 2) * exp (- (1 - 1) / 2) * 101.0e3 * 341.0).
Proof.
  split.
  - apply (friedlander_cases 0 1 2 3); lra.
  - apply (friedlander_cases 1 1 2 3); lra.
Defined.

(** *** The jump at the arrival time *)

Lemma friedlander_at_before (ta tau Pp t : R) :
  t < ta -> friedlander_at ta tau Pp t = 0.
Proof.
  intros H. unfold friedlander_at. now rewrite friedlander_before.
Qed.

Lemma friedlander_at_from (ta tau Pp t : R) :
  tau <> 0 -> ta <= t ->
  friedlander_at ta tau Pp t
  = Pp * (1 - (t - ta) / tau) * exp (- (t - ta) / tau) * 101.0e3 * 341.0.
Proof.
  intros Htau H. unfold friedlander_at. now rewrite friedlander_from.
Qed.

Lemma friedlander_at_arrival (ta tau Pp : R) :
  tau <> 0 -> friedlander_at ta tau Pp ta = Pp * 101.0e3 * 341.0.
Proof.
  intros Htau. rewrite friedlander_at_from by (assumption || lra).
  replace (ta - ta) with 0 by lra.
  replace (- 0 / tau) with 0 by (unfold Rdiv; lra).
  replace (0 / tau) with 0 by (unfold Rdiv; lra).
  rewrite exp_0. lra.
Qed.

Lemma decay_continuous (ta tau Pp : R) :
  continuity_pt
    (fun t => Pp * (1 - (t - ta) / tau) * exp (- (t - ta) / tau) * 101.0e3 * 341.0)
    ta.
Proof.
  apply derivable_continuous_pt.
  reg.
Qed.

(** The wave jumps at the arrival time unless its peak is zero. *)
Lemma friedlander_jump (ta tau Pp : R) :
  tau <> 0 -> Pp <> 0 -> ~ continuity_pt (friedlander_at ta tau Pp) ta.
Proof.
  intros Htau HPp Hc.
  assert (Heps : 0 < Rabs Pp * 101.0e3 * 341.0).
  { pose proof (Rabs_pos_lt Pp HPp). nra. }
  destruct (Hc _ Heps) as [alp [Halp Hlim]].
  assert (Hx : D_x no_cond ta (ta - alp / 2) /\ Rabs (ta - alp / 2 - ta) < alp).
  { split; [split; [exact I | lra] |].
    replace (ta - alp / 2 - ta) with (- (alp / 2)) by lra.
    rewrite Rabs_Ropp, Rabs_pos_eq; lra. }
  specialize (Hlim (ta - alp / 2) Hx).
  change (Rabs (friedlander_at ta tau Pp (ta - alp / 2)
                - friedlander_at ta tau Pp ta)
          < Rabs Pp * 101.0e3 * 341.0) in Hlim.
  rewrite friedlander_at_before in Hlim by lra.
  rewrite friedlander_at_arrival in Hlim by assumption.
  revert Hlim. unfold Rabs. repeat destruct Rcase_abs; intros; nra.
Qed.

Lemma friedlander_right_limit (ta tau Pp : R) :
  tau <> 0 ->
  limit1_in (friedlander_at ta tau Pp) (fun t => ta < t) (Pp * 101.0e3 * 341.0) ta.
Proof.
  intros Htau eps Heps.
  destruct (decay_continuous ta tau Pp eps Heps) as [alp [Halp Hlim]].
  exists alp. split; [exact Halp |].
  intros x [Hx Hd].
  rewrite friedlander_at_from by (assumption || lra).
  rewrite <- (friedlander_at_arrival ta tau Pp Htau).
  rewrite (friedlander_at_from ta tau Pp ta) by (assumption || lra).
  apply Hlim. split; [split; [exact I | lra] | exact Hd].
Qed.

Lemma friedlander_left_limit (ta tau Pp : R) :
  limit1_in (friedlander_at ta tau Pp) (fun t => t < ta) 0 ta.
Proof.
  intros eps Heps. exists 1. split; [lra |].
  intros x [Hx _]. rewrite friedlander_at_before by assumption.
  simpl. unfold Rdist. rewrite Rminus_diag, Rabs_R0. exact Heps.
Qed.

(** C8, as the code has it: at [t = ta] the Friedlander wave jumps.  Its
    value, and so its limit, from below is 0; its value at [ta] and its
    limit from above are [Pp*pinf*ainf]; it is not continuous there unless
    [Pp = 0]. *)
Theorem friedlander_at_arrival_time (ta tau Pp : R) :
  0 < tau ->
  (forall t, t < ta -> friedlander_at ta tau Pp t = 0) /\
  limit1_in (friedlander_at ta tau Pp) (fun t => t < ta) 0 ta /\
  friedlander_at ta tau Pp ta = Pp * 101.0e3 * 341.0 /\
  limit1_in (friedlander_at ta tau Pp) (fun t => ta < t) (Pp * 101.0e3 * 341.0) ta /\
  (Pp <> 0 -> ~ continuity_pt (friedlander_at ta tau Pp) ta).
Proof.
  intros Htau. assert (Hne : tau <> 0) by lra.
  split; [intros t; apply friedlander_at_before |].
  split; [apply friedlander_left_limit |].
  split; [apply friedlander_at_arrival; exact Hne |].
  split; [apply friedlander_right_limit; exact Hne |].
  intros HPp. apply friedlander_jump; assumption.
Qed.

Lemma friedlander_at_arrival_time_witness :
  friedlander_at 0 1 1 0 = 1 * 101.0e3 * 341.0 /\
  ~ continuity_pt (friedlander_at 0 1 1) 0.
Proof.
  destruct (friedlander_at_arrival_time 0 1 1 Rlt_0_1) as (_ & _ & H3 & _ & H5).
  split; [exact H3 | apply H5; lra].
Defined.

(** C8 as stated fails for [ta = 0], [tau = 1], [Pp = 1]: the wave is not
    continuous at the arrival time. *)
Lemma friedlander_not_continuous :
  ~ continuity_pt (friedlander_at 0 1 1) 0.
Proof. apply friedlander_jump; lra. Qed.

(** ** The Mach cone angle *)

Lemma arcsin_finite (x : R) :
  -1 <= x <= 1 -> np.arcsin (Finite x) = Finite (asin x).
Proof.
  intros [H1 H2]; unfold np.arcsin.
  now rewrite (Rleb_true _ _ H1), (Rleb_true _ _ H2).
Qed.

Lemma arcsin_nan (x : R) : x < -1 \/ 1 < x -> np.arcsin (Finite x) = NaN.
Proof.
  intros [H | H]; unfold np.arcsin.
  - now rewrite (Rleb_false _ _ H).
  - now rewrite (Rleb_false _ _ H), andb_false_r.
Qed.

Lemma inv_ge_1 (M : R) : 1 <= M -> 0 < 1.0 / M <= 1.
Proof.
  intros H.
  assert (H0 : 0 < / M) by (apply Rinv_0_lt_compat; lra).
  assert (H1 : / M <= / 1) by (apply Rinv_le_contravar; lra).
  rewrite Rinv_1 in H1. unfold Rdiv. lra.
Qed.

Lemma inv_lt_1 (M : R) : 0 < M < 1 -> 1 < 1.0 / M.
Proof.
  intros [H0 H1].
  assert (H : / 1 < / M) by (apply Rinv_lt_contravar; lra).
  rewrite Rinv_1 in H. unfold Rdiv. lra.
Qed.

Lemma inv_opp (M : R) : M <> 0 -> 1.0 / M = - (1.0 / - M).
Proof. intros H. field. assumption. Qed.

(** C6, as the code has it: [coneAngle] has no subsonic check.  It returns
    [arcsin(1/M)] for every [M >= 1] (so also at [M = 1]) and every
    [M <= -1], returns [nan] without raising for [0 < |M| < 1], and raises
    [ZeroDivisionError] at [M = 0]. *)
Theorem coneAngle_values (M : R) :
  (1 <= M \/ M <= -1 -> nwave.coneAngle M = Returns (Finite (asin (1.0 / M)))) /\
  (-1 < M < 1 -> M <> 0 -> nwave.coneAngle M = Returns NaN) /\
  (M = 0 -> nwave.coneAngle M = Raises ZeroDivisionError).
Proof.
  unfold nwave.coneAngle; repeat split.
  - intros H. rewrite Reqb_false by lra. rewrite arcsin_finite; [reflexivity |].
    destruct H as [H | H].
    + pose proof (inv_ge_1 M H). lra.
    + assert (Hm : 1 <= - M) by lra.
      pose proof (inv_ge_1 (- M) Hm).
      rewrite (inv_opp M) by lra. lra.
  - intros H Hne. rewrite Reqb_false by assumption.
    rewrite arcsin_nan; [reflexivity |].
    destruct (Rlt_dec 0 M) as [Hp | Hn].
    + right. apply inv_lt_1. lra.
    + left. assert (Hm : 0 < - M < 1) by lra.
      pose proof (inv_lt_1 (- M) Hm).
      rewrite (inv_opp M) by lra. lra.
  - intros H. now rewrite Reqb_true.
Qed.

Lemma coneAngle_values_witness :
  nwave.coneAngle 2 = Returns (Finite (asin (1.0 / 2))) /\
  nwave.coneAngle (1 / 2) = Returns NaN /\
  nwave.coneAngle 0 = Raises ZeroDivisionError.
Proof.
  split; [| split].
  - apply (coneAngle_values 2). left. lra.
  - apply (coneAngle_values (1 / 2)); lra.
  - apply (coneAngle_values 0). reflexivity.
Defined.

(** C6 as stated fails at [M = 1]: [coneAngle] returns [pi/2] there. *)
Lemma coneAngle_mach_one_returns :
  nwave.coneAngle 1 = Returns (Finite (PI / 2)).
Proof.
  unfold nwave.coneAngle. rewrite Reqb_false by lra.
  replace (1.0 / 1) with 1 by lra.
  rewrite arcsin_finite by lra. now rewrite asin_1.
Qed.

(** ** The momentum index *)

(** C10: for [pe > 0] and [gamma > 0], [momentumindex M pe gamma] is
    [0.87 - 0.01*M*sqrt(gamma*(98066.5*pe/101e3)/2)], it is strictly
    decreasing in [M], and it is below [0.87] for every [M > 0]. *)
Theorem momentumindex_decreasing (pe gamma : R) :
  0 < pe -> 0 < gamma ->
  (forall M,
     muzzleblast.momentumindex M pe gamma
     = Finite (0.87 - 0.01 * M * sqrt (gamma * (98066.5 * pe / 101e3) / 2))) /\
  (forall M1 M2, M1 < M2 ->
     real_of (muzzleblast.momentumindex M2 pe gamma)
     < real_of (muzzleblast.momentumindex M1 pe gamma)) /\
  (forall M, 0 < M -> real_of (muzzleblast.momentumindex M pe gamma) < 0.87).
Proof.
  intros Hpe Hgamma.
  assert (Hpos : 0 < gamma * (98066.5 * pe / 101e3) / 2) by nra.
  assert (Hsqrt : 0 < sqrt (gamma * (98066.5 * pe / 101e3) / 2))
    by (apply sqrt_lt_R0; exact Hpos).
  assert (Heq : forall M,
     muzzleblast.momentumindex M pe gamma
     = Finite (0.87 - 0.01 * M * sqrt (gamma * (98066.5 * pe / 101e3) / 2))).
  { intros M. unfold muzzleblast.momentumindex, util.convertPressureToPascals.
    np_finite. f_equal. ring. }
  split; [exact Heq | split].
  - intros M1 M2 HM. rewrite !Heq. simpl. nra.
  - intros M HM. rewrite Heq. simpl. nra.
Qed.

Lemma momentumindex_decreasing_witness :
  muzzleblast.momentumindex 2 2000 1.24
  = Finite (0.87 - 0.01 * 2 * sqrt (1.24 * (98066.5 * 2000 / 101e3) / 2)) /\
  real_of (muzzleblast.momentumindex 3 2000 1.24)
  < real_of (muzzleblast.momentumindex 2 2000 1.24) /\
  real_of (muzzleblast.momentumindex 2 2000 1.24) < 0.87.
Proof.
  assert (H : 0 < 2000) by lra.
  assert (G : 0 < 1.24) by lra.
  destruct (momentumindex_decreasing 2000 1.24 H G) as [H1 [H2 H3]].
  split; [apply H1 | split].
  - apply H2; lra.
  - apply H3; lra.
Defined.

(** ** Geometry *)

Lemma dot_self_nonneg (a : vec3) : 0 <= dot a a.
Proof. destruct a as [[a0 a1] a2]; simpl; nra. Qed.

Lemma dot_self_zero (a : vec3) : dot a a = 0 -> a = (0, 0, 0).
Proof.
  destruct a as [[a0 a1] a2]; simpl; intros H.
  assert (H0 : a0 = 0) by nra.
  assert (H1 : a1 = 0) by nra.
  assert (H2 : a2 = 0) by nra.
  now subst.
Qed.

Lemma vsub_zero (a b : vec3) : vsub a b = (0, 0, 0) -> a = b.
Proof.
  destruct a as [[a0 a1] a2], b as [[b0 b1] b2]; simpl; intros H.
  inversion H. f_equal; [f_equal |]; lra.
Qed.

Lemma vsub_self (a : vec3) : vsub a a = (0, 0, 0).
Proof. destruct a as [[a0 a1] a2]; simpl. f_equal; [f_equal |]; lra. Qed.

Lemma norm_pos (a : vec3) : a <> (0, 0, 0) -> 0 < spec.norm a.
Proof.
  intros H. unfold spec.norm. apply sqrt_lt_R0.
  destruct (dot_self_nonneg a) as [Hlt | Heq]; [exact Hlt |].
  exfalso. apply H. apply dot_self_zero. now symmetry.
Qed.

Lemma norm_sqr (a : vec3) : spec.norm a * spec.norm a = dot a a.
Proof. unfold spec.norm. apply sqrt_sqrt, dot_self_nonneg. Qed.

Lemma arccos_finite (x : R) :
  -1 <= x <= 1 -> np.arccos (Finite x) = Finite (acos x).
Proof.
  intros [H1 H2]; unfold np.arccos.
  now rewrite (Rleb_true _ _ H1), (Rleb_true _ _ H2).
Qed.

Lemma div_zero_zero : np.div (Finite 0) (Finite 0) = NaN.
Proof.
  unfold np.div, np.signed_inf. now rewrite !Reqb_true by reflexivity.
Qed.

(** A component of a vector over its norm lies in [[-1, 1]]. *)
Lemma component_over_norm (a : vec3) :
  a <> (0, 0, 0) -> -1 <= dot a (0, 1.0, 0) / spec.norm a <= 1.
Proof.
  intros H. pose proof (norm_pos a H) as Hn. pose proof (norm_sqr a) as Hs.
  set (n := spec.norm a) in *.
  destruct a as [[a0 a1] a2]; simpl in *.
  assert (Hq : (a0 * 0 + a1 * 1.0 + a2 * 0) / n * n = a1).
  { unfold Rdiv. rewrite Rmult_assoc, Rinv_l by lra. lra. }
  set (q := (a0 * 0 + a1 * 1.0 + a2 * 0) / n) in *.
  assert (Hb : - n <= a1 <= n) by (split; nra).
  split.
  - destruct (Rle_dec (-1) q) as [Hle | Hgt]; [exact Hle | exfalso; nra].
  - destruct (Rle_dec q 1) as [Hle | Hgt]; [exact Hle | exfalso; nra].
Qed.

(** C7, as the code has it: [computeGeometry] raises nothing.  At
    [micPos = gunPos] it returns the distance 0 and the angle [nan]; for
    distinct positions it returns the Euclidean norm of [micPos - gunPos]
    and [arccos(dot(micPos - gunPos, (0,1,0)) / distance)], which lies in
    [[0, pi]]. *)
Theorem computeGeometry_values (xmic xgun : vec3) :
  (xmic = xgun -> util.computeGeometry xmic xgun = (Finite 0, NaN)) /\
  (xmic <> xgun ->
   let distance := spec.norm (vsub xmic xgun) in
   let angle := acos (dot (vsub xmic xgun) (0, 1.0, 0) / distance) in
   util.computeGeometry xmic xgun = (Finite distance, Finite angle) /\
   0 <= angle <= PI).
Proof.
  unfold util.computeGeometry; split.
  - intros ->. rewrite vsub_self. simpl dot.
    replace (0 * 0 + 0 * 0 + 0 * 0) with 0 by lra.
    replace (0 * 0 + 0 * 1.0 + 0 * 0) with 0 by lra.
    rewrite sqrt_finite, sqrt_0 by lra. now rewrite div_zero_zero.
  - intros Hne. cbv zeta.
    assert (Hm : vsub xmic xgun <> (0, 0, 0))
      by (intros H; apply Hne, vsub_zero, H).
    pose proof (norm_pos _ Hm) as Hn.
    rewrite sqrt_finite by apply dot_self_nonneg.
    fold (spec.norm (vsub xmic xgun)).
    rewrite div_finite by lra.
    rewrite arccos_finite by (apply component_over_norm; exact Hm).
    split; [reflexivity | apply acos_bound].
Qed.

Lemma computeGeometry_values_witness :
  util.computeGeometry (1, 2, 3) (1, 2, 3) = (Finite 0, NaN) /\
  util.computeGeometry (0, 0, 100) (0, 0, 0)
  = (Finite (spec.norm (vsub (0, 0, 100) (0, 0, 0))),
     Finite (acos (dot (vsub (0, 0, 100) (0, 0, 0)) (0, 1.0, 0)
                   / spec.norm (vsub (0, 0, 100) (0, 0, 0))))).
Proof.
  split.
  - apply (computeGeometry_values (1, 2, 3) (1, 2, 3)). reflexivity.
  - apply (computeGeometry_values (0, 0, 100) (0, 0, 0)).
    intros H. inversion H. lra.
Defined.

(** C7 as stated fails at [micPos = gunPos]: the call returns, with a
    [nan] angle. *)
Lemma computeGeometry_same_point_returns :
  util.computeGeometry (0, 0, 0) (0, 0, 0) = (Finite 0, NaN).
Proof.
  unfold util.computeGeometry. simpl vsub. simpl dot.
  replace (0 - 0) with 0 by lra.
  replace (0 * 0 + 0 * 0 + 0 * 0) with 0 by lra.
  replace (0 * 0 + 0 * 1.0 + 0 * 0) with 0 by lra.
  rewrite sqrt_finite, sqrt_0 by lra. now rewrite div_zero_zero.
Qed.

(** *** Miss distance *)

Lemma cauchy_schwarz (a b : vec3) : dot a b * dot a b <= dot a a * dot b b.
Proof.
  destruct a as [[a0 a1] a2], b as [[b0 b1] b2]; simpl.
  assert (H : (a0 * a0 + a1 * a1 + a2 * a2) * (b0 * b0 + b1 * b1 + b2 * b2)
              - (a0 * b0 + a1 * b1 + a2 * b2) * (a0 * b0 + a1 * b1 + a2 * b2)
              = (a0 * b1 - a1 * b0) ^ 2 + (a0 * b2 - a2 * b0) ^ 2
                + (a1 * b2 - a2 * b1) ^ 2) by ring.
  pose proof (pow2_ge_0 (a0 * b1 - a1 * b0)).
  pose proof (pow2_ge_0 (a0 * b2 - a2 * b0)).
  pose proof (pow2_ge_0 (a1 * b2 - a2 * b1)).
  lra.
Qed.

Lemma projection_dot (m n : vec3) :
  n <> (0, 0, 0) -> projection m n * spec.norm n = dot m n.
Proof.
  intros H. pose proof (norm_pos n H) as Hn.
  unfold projection. set (s := spec.norm n) in *.
  destruct m as [[m0 m1] m2], n as [[n0 n1] n2]; simpl.
  field. lra.
Qed.

Lemma projection_le_norm (m n : vec3) :
  n <> (0, 0, 0) -> projection m n * projection m n <= dot m m.
Proof.
  intros H. pose proof (norm_pos n H) as Hn.
  pose proof (projection_dot m n H) as Hp.
  pose proof (norm_sqr n) as Hs.
  pose proof (cauchy_schwarz m n) as Hcs.
  pose proof (dot_self_nonneg m) as Hm.
  set (p := projection m n) in *. set (s := spec.norm n) in *.
  rewrite <- Hp, <- Hs in Hcs.
  assert (Hss : 0 < s * s) by nra.
  destruct (Rle_dec (p * p) (dot m m)) as [Hle | Hgt]; [exact Hle |].
  exfalso. assert (Hlt : dot m m < p * p) by lra.
  assert (dot m m * (s * s) < p * p * (s * s))
    by (apply Rmult_lt_compat_r; assumption).
  lra.
Qed.

Lemma missDistance_finite (xgun ngun xmic : vec3) :
  ngun <> (0, 0, 0) ->
  let m := vsub xmic xgun in
  nwave.missDistance xgun ngun xmic
  = (Finite (sqrt (dot m m - projection m ngun * projection m ngun)),
     Finite (projection m ngun)).
Proof.
  intros H m. pose proof (norm_pos ngun H) as Hn.
  pose proof (projection_le_norm m ngun H) as Hle.
  unfold nwave.missDistance. fold m.
  rewrite !sqrt_finite by apply dot_self_nonneg.
  fold (spec.norm m). fold (spec.norm ngun).
  assert (Hd : np_dot m (np_vdiv ngun (Finite (spec.norm ngun)))
               = Finite (projection m ngun)).
  { unfold np_dot, np_vdiv, projection.
    destruct m as [[m0 m1] m2], ngun as [[n0 n1] n2].
    np_finite. reflexivity. }
  rewrite Hd. np_finite_with ltac:(idtac; lra).
  rewrite norm_sqr. rewrite sqrt_finite by lra. reflexivity.
Qed.

(** On real numbers, for a non-zero barrel direction, the pair
    [(dmis, dlin)] that [missDistance] returns satisfies
    [dmis^2 + dlin^2 = distance^2], where [distance] is the
    gun-to-microphone distance that [computeGeometry] returns. *)
Theorem missDistance_pythagoras (xgun ngun xmic : vec3) :
  ngun <> (0, 0, 0) ->
  exists dmis dlin distance : R,
    nwave.missDistance xgun ngun xmic = (Finite dmis, Finite dlin) /\
    fst (util.computeGeometry xmic xgun) = Finite distance /\
    distance = spec.norm (vsub xmic xgun) /\
    dmis ^ 2 + dlin ^ 2 = distance ^ 2.
Proof.
  intros H.
  pose proof (projection_le_norm (vsub xmic xgun) ngun H) as Hle.
  eexists _, _, _. split; [apply missDistance_finite; exact H |].
  split; [| split; [reflexivity |]].
  - unfold util.computeGeometry. simpl fst.
    now rewrite sqrt_finite by apply dot_self_nonneg.
  - simpl pow. rewrite !Rmult_1_r.
    rewrite sqrt_sqrt by lra. rewrite norm_sqr. lra.
Qed.

Lemma missDistance_pythagoras_witness :
  exists dmis dlin distance : R,
    nwave.missDistance (0, 0, 0) (0, 0, 1) (3, 0, 4) = (Finite dmis, Finite dlin) /\
    fst (util.computeGeometry (3, 0, 4) (0, 0, 0)) = Finite distance /\
    distance = spec.norm (vsub (3, 0, 4) (0, 0, 0)) /\
    dmis ^ 2 + dlin ^ 2 = distance ^ 2.
Proof.
  apply (missDistance_pythagoras (0, 0, 0) (0, 0, 1) (3, 0, 4)).
  intros H. inversion H. lra.
Defined.

(** The microphone at [(1, 1, 1)] on the barrel line through the origin
    along [(1, 1, 1)], on real numbers: the miss distance is 0. *)
Lemma missDistance_diagonal_exact :
  nwave.missDistance (0, 0, 0) (1, 1, 1) (1, 1, 1) = (Finite 0, Finite (sqrt 3)).
Proof.
  assert (Hn : (1, 1, 1) <> (0, 0, 0)) by (intros H; inversion H; lra).
  rewrite (missDistance_finite (0, 0, 0) (1, 1, 1) (1, 1, 1) Hn). cbv zeta.
  assert (H3 : 0 < sqrt 3) by (apply sqrt_lt_R0; lra).
  assert (Hs : sqrt 3 * sqrt 3 = 3) by (apply sqrt_sqrt; lra).
  assert (Hp : projection (vsub (1, 1, 1) (0, 0, 0)) (1, 1, 1) = sqrt 3).
  { unfold projection, spec.norm. simpl.
    replace (1 * 1 + 1 * 1 + 1 * 1) with 3 by lra.
    assert (Hq : 1 / sqrt 3 * sqrt 3 = 1).
    { unfold Rdiv. rewrite Rmult_assoc, Rinv_l by lra. lra. }
    set (q := 1 / sqrt 3) in *.
    apply (Rmult_eq_reg_r (sqrt 3)); [| lra]. nra. }
  rewrite Hp. simpl dot.
  replace ((1 - 0) * (1 - 0) + (1 - 0) * (1 - 0) + (1 - 0) * (1 - 0)
           - sqrt 3 * sqrt 3) with 0 by lra.
  now rewrite sqrt_0.
Qed.

Section barrel_line.

Import PrimFloat.

(** C9: on binary64 numbers the identity fails.  With the gun at the
    origin, the barrel along [(1, 1, 1)] and the microphone at [(1, 1, 1)],
    a point of the barrel line, the gun-to-microphone distance is computed
    as [1.7320508075688772] and the line distance as [1.7320508075688776],
    so the radicand is negative and [missDistance] returns [nan] as the
    miss distance; on real numbers the miss distance is 0 and the line
    distance [sqrt 3]. *)
Theorem missDistance_on_barrel_line :
  binary64.missDistance (0, 0, 0)%float (1, 1, 1)%float (1, 1, 1)%float
  = (nan, 0x1.bb67ae8584cacp+0%float) /\
  sqrt (binary64.dot (binary64.sub3 (1, 1, 1) (0, 0, 0))
                     (binary64.sub3 (1, 1, 1) (0, 0, 0)))%float
  = 0x1.bb67ae8584caap+0%float /\
  nwave.missDistance (0, 0, 0) (1, 1, 1) (1, 1, 1)
  = (Finite 0, Finite (R_sqrt.sqrt 3)).
Proof.
  split; [reflexivity | split; [reflexivity |]].
  exact missDistance_diagonal_exact.
Qed.

End barrel_line.

(** ** The N-wave *)

(** Decide the comparisons of the goal from the hypotheses. *)
Ltac rdecide :=
  repeat first
    [ rewrite Rltb_true by lra | rewrite Rltb_false by lra
    | rewrite Rleb_true by lra | rewrite Rleb_false by lra ].

(** The chain of tests of [nWave], on finite parameters. *)
Lemma nWave_shape (pmax ta Td tr t : R) :
  0 < tr -> 2 * tr < Td ->
  (if np.lt (Finite t) (Finite ta) then
     Finite 0
   else if np.le (Finite t) (np.add (Finite ta) (Finite tr))
           && np.gt (Finite t) (Finite ta) then
     np.mul (np.div (np.sub (Finite t) (Finite ta)) (Finite tr)) (Finite pmax)
   else if np.le (Finite t) (np.sub (np.add (Finite ta) (Finite Td)) (Finite tr))
           && np.gt (Finite t) (np.add (Finite ta) (Finite tr)) then
     np.mul
       (np.sub (Finite 1)
          (np.div (np.mul (Finite 2) (np.sub (np.sub (Finite t) (Finite ta)) (Finite tr)))
                  (np.sub (Finite Td) (np.mul (Finite 2) (Finite tr)))))
       (Finite pmax)
   else if np.le (Finite t) (np.add (Finite ta) (Finite Td))
           && np.gt (Finite t) (np.sub (np.add (Finite ta) (Finite Td)) (Finite tr)) then
     np.mul
       (np.add (Finite (-1.0))
          (np.div (np.add (np.sub (np.sub (Finite t) (Finite ta)) (Finite Td)) (Finite tr))
                  (Finite tr)))
       (Finite pmax)
   else
     Finite 0)
  = Finite (spec.nwave_sample pmax ta tr Td t).
Proof.
  intros Htr HTd. unfold spec.nwave_sample.
  np_finite.
  destruct (Rlt_dec t ta) as [H1 | H1]; [rdecide; reflexivity |].
  destruct (Req_dec t ta) as [H2 | H2].
  { subst t. rdecide. simpl. f_equal. unfold Rdiv. lra. }
  destruct (Rle_dec t (ta + tr)) as [H3 | H3]; [rdecide; reflexivity |].
  destruct (Rle_dec t (ta + Td - tr)) as [H4 | H4]; [rdecide; reflexivity |].
  destruct (Rle_dec t (ta + Td)) as [H5 | H5].
  { rdecide. simpl. replace (-1.0) with (-1) by lra. reflexivity. }
  rdecide. reflexivity.
Qed.

(** C4: when the peak [pmax], the rise time [tr] and the duration [Td]
    that [nWave] computes satisfy [pmax > 0], [tr > 0] and [Td > 2*tr],
    the value of [nWave] at [t] is the four-segment waveform of the
    specification, boundaries included. *)
Theorem nWave_piecewise (xgun ngun xmic : vec3) (v d l : R) (x : npfloat)
  (pmax ta Td tr t : R) :
  nwave.nWaveOverPressure v d l x = Finite pmax ->
  nwave.nWaveTimeOfArrival v xgun ngun xmic = Returns (Finite ta) ->
  nwave.nWaveDuration v d l x = Finite Td ->
  nwave.nWaveRiseTime (Finite pmax) = Finite tr ->
  0 < pmax -> 0 < tr -> 2 * tr < Td ->
  nwave.nWave xgun ngun xmic v d l x (Finite t)
  = Returns (Finite (spec.nwave_sample pmax ta tr Td t)).
Proof.
  intros Hp Ha Hd Hr Hpmax Htr HTd.
  unfold nwave.nWave. rewrite Hp, Ha, Hd, Hr. simpl bind.
  f_equal. apply nWave_shape; assumption.
Qed.

Lemma Rpower_base_1 (y : R) : Rpower 1 y = 1.
Proof. unfold Rpower. now rewrite ln_1, Rmult_0_r, exp_0. Qed.

Lemma sqrt2_gt_1 : 1 < sqrt 2.
Proof. rewrite <- sqrt_1 at 1. apply sqrt_lt_1; lra. Qed.

Lemma mach_sqrt2 : nwave.MachNumber (341 * sqrt 2) = sqrt 2.
Proof. unfold nwave.MachNumber. lra. Qed.

(** A projectile at Mach [sqrt 2], of unit diameter and length, passing
    at unit miss distance. *)
Lemma overpressure_sqrt2 :
  nwave.nWaveOverPressure (341 * sqrt 2) 1 1 (Finite 1) = Finite 53530.
Proof.
  unfold nwave.nWaveOverPressure. rewrite mach_sqrt2.
  rewrite square_finite, sqrt_sqrt by lra. rewrite sub_finite.
  replace (2 - 1) with 1 by lra.
  rewrite !power_finite by lra. rewrite !Rpower_base_1.
  np_finite. f_equal. lra.
Qed.

Lemma duration_sqrt2 :
  nwave.nWaveDuration (341 * sqrt 2) 1 1 (Finite 1)
  = Finite (1.82 * sqrt 2 / 341).
Proof.
  unfold nwave.nWaveDuration. rewrite mach_sqrt2.
  rewrite square_finite, sqrt_sqrt by lra. rewrite sub_finite.
  replace (2 - 1) with 1 by lra.
  rewrite !power_finite by lra. rewrite !Rpower_base_1.
  np_finite. f_equal. lra.
Qed.

Lemma riseTime_sqrt2 :
  nwave.nWaveRiseTime (Finite 53530) = Finite (68.0e-9 / 341.0 * 101.0e3 / 53530).
Proof. unfold nwave.nWaveRiseTime. np_finite. reflexivity. Qed.

Lemma timeOfArrival_sqrt2 :
  nwave.nWaveTimeOfArrival (341 * sqrt 2) (0, 0, 0) (0, 0, 1) (1, 0, 100)
  = Returns (Finite
      (cos (asin (1.0 / sqrt 2))
       * sqrt (dot (vsub (1, 0, 100) (0, 0, 0)) (vsub (1, 0, 100) (0, 0, 0))
               - projection (vsub (1, 0, 100) (0, 0, 0)) (0, 0, 1)
                 * projection (vsub (1, 0, 100) (0, 0, 0)) (0, 0, 1))
       / 341.0
       + projection (vsub (1, 0, 100) (0, 0, 0)) (0, 0, 1) / (341 * sqrt 2))).
Proof.
  pose proof sqrt2_gt_1 as Hs.
  unfold nwave.nWaveTimeOfArrival. rewrite mach_sqrt2.
  unfold nwave.coneAngle. rewrite Reqb_false by lra.
  rewrite arcsin_finite.
  2:{ pose proof (inv_ge_1 (sqrt 2)). lra. }
  unfold bind.
  rewrite missDistance_finite.
  2:{ intros H. inversion H. lra. }
  np_finite. reflexivity.
Qed.

Lemma nWave_piecewise_witness :
  nwave.nWave (0, 0, 0) (0, 0, 1) (1, 0, 100) (341 * sqrt 2) 1 1 (Finite 1) (Finite 0)
  = Returns (Finite
      (spec.nwave_sample 53530
         (cos (asin (1.0 / sqrt 2))
          * sqrt (dot (vsub (1, 0, 100) (0, 0, 0)) (vsub (1, 0, 100) (0, 0, 0))
                  - projection (vsub (1, 0, 100) (0, 0, 0)) (0, 0, 1)
                    * projection (vsub (1, 0, 100) (0, 0, 0)) (0, 0, 1))
          / 341.0
          + projection (vsub (1, 0, 100) (0, 0, 0)) (0, 0, 1) / (341 * sqrt 2))
         (68.0e-9 / 341.0 * 101.0e3 / 53530)
         (1.82 * sqrt 2 / 341)
         0)).
Proof.
  pose proof sqrt2_gt_1 as Hs.
  apply nWave_piecewise.
  - exact overpressure_sqrt2.
  - exact timeOfArrival_sqrt2.
  - exact duration_sqrt2.
  - exact riseTime_sqrt2.
  - lra.
  - lra.
  - lra.
Defined.

(** ** Arrays *)

Lemma int_nonneg (x : R) : 0 <= x -> np.int x = Zfloor x /\ (0 <= Zfloor x)%Z.
Proof.
  intros H. unfold np.int. rewrite Rleb_true by assumption.
  split; [reflexivity | apply Zfloor_lub; exact H].
Qed.

Lemma linspace_returns (start stop num : R) :
  0 <= num ->
  exists t,
    np.linspace start stop num = Returns t /\
    length t = Z.to_nat (Zfloor num).
Proof.
  intros H. destruct (int_nonneg num H) as [Hi Hz].
  unfold np.linspace. rewrite Hi.
  destruct (Z.ltb_spec (Zfloor num) 0) as [Hneg | _]; [lia |].
  eexists. split; [reflexivity |].
  now rewrite length_map, length_seq.
Qed.

Lemma mapM_total {A B : Type} (f : A -> result B) (g : A -> B) (l : list A) :
  (forall x, f x = Returns (g x)) -> mapM f l = Returns (map g l).
Proof.
  intros H. induction l as [| x l IH]; [reflexivity |].
  simpl. rewrite H, IH. reflexivity.
Qed.

Lemma add_arrays_length (a b : list npfloat) :
  length a = length b -> length (np.add_arrays a b) = length a.
Proof.
  revert b. induction a as [| x a IH]; intros [| y b] H; simpl in *;
    try reflexivity; try discriminate.
  f_equal. apply IH. now injection H.
Qed.

Lemma add_arrays_zeros (a : list npfloat) :
  np.add_arrays a (np.zeros (length a)) = a.
Proof.
  unfold np.zeros. induction a as [| x a IH]; [reflexivity |].
  simpl. now rewrite add_zero_r, IH.
Qed.

Lemma zeros_length (n : nat) : length (np.zeros n) = n.
Proof. apply repeat_length. Qed.

(** ** The waveform generators *)

Lemma coneAngle_returns (M : R) :
  M <> 0 -> nwave.coneAngle M = Returns (np.arcsin (Finite (1.0 / M))).
Proof. intros H. unfold nwave.coneAngle. now rewrite Reqb_false. Qed.

Lemma nWaveTimeOfArrival_returns (v : R) (xgun ngun xmic : vec3) :
  v <> 0 -> exists ta, nwave.nWaveTimeOfArrival v xgun ngun xmic = Returns ta.
Proof.
  intros H. unfold nwave.nWaveTimeOfArrival.
  rewrite coneAngle_returns by (unfold nwave.MachNumber; intros H0; apply H; lra).
  unfold bind. destruct (nwave.missDistance xgun ngun xmic) as [dmis dlin].
  eexists. reflexivity.
Qed.

Lemma nWave_returns (xgun ngun xmic : vec3) (v d l : R) (x : npfloat) :
  v <> 0 ->
  exists g, forall t, nwave.nWave xgun ngun xmic v d l x t = Returns (g t).
Proof.
  intros H. destruct (nWaveTimeOfArrival_returns v xgun ngun xmic H) as [ta Hta].
  unfold nwave.nWave. rewrite Hta. unfold bind.
  eexists (fun t => _). intros t. reflexivity.
Qed.

Lemma calculateNWave_returns (xgun ngun xmic : vec3) (v d l : R) (x : npfloat)
  (dur Fs : R) :
  0 <= dur * Fs -> v <> 0 ->
  exists wv t,
    np.linspace 0 dur (dur * Fs) = Returns t /\
    nwave.calculateNWave xgun ngun xmic v d l x dur Fs = Returns wv /\
    length wv = Z.to_nat (Zfloor (dur * Fs)) /\
    forall i, (i < length wv)%nat ->
      nwave.nWave xgun ngun xmic v d l x (nth i t NaN) = Returns (nth i wv NaN).
Proof.
  intros Hn Hv.
  destruct (linspace_returns 0 dur (dur * Fs) Hn) as [t [Ht Hlen]].
  destruct (nWave_returns xgun ngun xmic v d l x Hv) as [g Hg].
  exists (map g t), t. unfold nwave.calculateNWave.
  rewrite Ht. unfold bind at 1.
  rewrite (mapM_total (fun ti => nwave.nWave xgun ngun xmic v d l x ti) g t Hg).
  unfold bind.
  split; [reflexivity | split; [reflexivity | split]].
  - now rewrite length_map.
  - intros i Hi. rewrite length_map in Hi. rewrite Hg.
    rewrite (nth_indep (map g t) NaN (g NaN)) by (now rewrite length_map).
    now rewrite map_nth.
Qed.

Lemma scalinglength_returns (gammae pe ue Ae : R) (mu theta : npfloat) :
  gammae <> 1 ->
  exists l lp, muzzleblast.scalinglength gammae pe ue Ae mu theta = Returns (l, lp).
Proof.
  intros H. unfold muzzleblast.scalinglength.
  rewrite Reqb_false by lra. eexists _, _. reflexivity.
Qed.

Lemma calculatemuzzleblast_returns (gammae pe ue Ae : R) (mu theta r : npfloat)
  (d Lm Vp duration Fs : R) :
  0 <= duration * Fs -> gammae <> 1 ->
  exists Pmb t l lp,
    np.linspace 0 duration (duration * Fs) = Returns t /\
    muzzleblast.scalinglength gammae (util.convertPressureToPascals pe) ue Ae
      mu theta = Returns (l, lp) /\
    muzzleblast.calculatemuzzleblast gammae pe ue Ae mu theta r d Lm Vp
      duration Fs = Returns (Pmb, t) /\
    length Pmb = Z.to_nat (Zfloor (duration * Fs)) /\
    forall i, (i < length Pmb)%nat ->
      nth i Pmb NaN
      = muzzleblast.friedlander (nth i t NaN)
          (muzzleblast.timeOfArrival r lp)
          (muzzleblast.positivePhaseDuration r lp l Lm Vp)
          (muzzleblast.peakOverpressure r lp).
Proof.
  intros Hn Hg.
  destruct (linspace_returns 0 duration (duration * Fs) Hn) as [t [Ht Hlen]].
  destruct (scalinglength_returns gammae (util.convertPressureToPascals pe)
              ue Ae mu theta Hg) as [l [lp Hs]].
  exists (muzzleblast.muzzleblast t (muzzleblast.timeOfArrival r lp)
            (muzzleblast.positivePhaseDuration r lp l Lm Vp)
            (muzzleblast.peakOverpressure r lp)), t, l, lp.
  unfold muzzleblast.calculatemuzzleblast. rewrite Ht, Hs. unfold bind.
  split; [reflexivity | split; [reflexivity | split; [reflexivity | split]]].
  - unfold muzzleblast.muzzleblast. now rewrite length_map.
  - intros i Hi. unfold muzzleblast.muzzleblast in *.
    rewrite length_map in Hi.
    set (f := fun t0 => muzzleblast.friedlander t0 _ _ _).
    rewrite (nth_indep (map f t) NaN (f NaN)) by (now rewrite length_map).
    now rewrite map_nth.
Qed.

(** C3, as the code has it: for positive [duration] and [Fs] each
    generator returns exactly [floor(duration*Fs)] samples, NumPy
    truncating the float count it is handed (for the muzzle blast when
    [gammae <> 1], for the N-wave when the projectile velocity is not 0). *)
Theorem generators_sample_count (duration Fs : R) :
  0 < duration -> 0 < Fs ->
  (forall (gammae pe ue Ae : R) (mu theta r : npfloat) (d Lm Vp : R),
     gammae <> 1 ->
     exists Pmb t,
       muzzleblast.calculatemuzzleblast gammae pe ue Ae mu theta r d Lm Vp
         duration Fs = Returns (Pmb, t) /\
       length Pmb = Z.to_nat (Zfloor (duration * Fs))) /\
  (forall (xgun ngun xmic : vec3) (v d l : R) (x : npfloat),
     v <> 0 ->
     exists wv,
       nwave.calculateNWave xgun ngun xmic v d l x duration Fs = Returns wv /\
       length wv = Z.to_nat (Zfloor (duration * Fs))).
Proof.
  intros Hd HFs. assert (Hn : 0 <= duration * Fs) by nra.
  split.
  - intros gammae pe ue Ae mu theta r d Lm Vp Hg.
    destruct (calculatemuzzleblast_returns gammae pe ue Ae mu theta r d Lm Vp
                duration Fs Hn Hg) as (Pmb & t & l & lp & _ & _ & Hret & Hlen & _).
    exists Pmb, t. split; assumption.
  - intros xgun ngun xmic v d l x Hv.
    destruct (calculateNWave_returns xgun ngun xmic v d l x duration Fs Hn Hv)
      as (wv & t & _ & Hret & Hlen & _).
    exists wv. split; assumption.
Qed.

Lemma generators_sample_count_witness :
  exists wv,
    nwave.calculateNWave (0, 0, 0) (0, 0, 1) (0, 0, 100) 900 1 1 (Finite 1)
      (11 / 4) 1 = Returns wv /\
    length wv = Z.to_nat (Zfloor (11 / 4 * 1)).
Proof.
  assert (Hd : 0 < 11 / 4) by lra.
  assert (HFs : 0 < 1) by lra.
  assert (Hv : 900 <> 0) by lra.
  exact (proj2 (generators_sample_count (11 / 4) 1 Hd HFs)
           (0, 0, 0) (0, 0, 1) (0, 0, 100) 900 1 1 (Finite 1) Hv).
Defined.

Lemma linspace_two_points :
  np.linspace 0 (11 / 4) (11 / 4 * 1) = Returns [Finite 0; Finite (11 / 4)].
Proof.
  unfold np.linspace, np.int. rewrite Rleb_true by lra.
  replace (Zfloor (11 / 4 * 1)) with 2%Z
    by (symmetry; apply Zfloor_eq; simpl; lra).
  simpl. f_equal. f_equal; [| f_equal]; f_equal; lra.
Qed.

Lemma round_two_and_three_quarters : spec.round (11 / 4 * 1) = 3%Z.
Proof. unfold spec.round. apply Zfloor_eq. simpl. lra. Qed.

(** C3 as stated fails for [duration = 11/4] and [Fs = 1]: the muzzle
    blast generator returns 2 samples, not [round(2.75) = 3]. *)
Lemma generator_length_not_rounded :
  exists Pmb t,
    muzzleblast.calculatemuzzleblast 1.24 2000 900 1 (Finite 0) (Finite 0)
      (Finite 1) 1 1 900 (11 / 4) 1 = Returns (Pmb, t) /\
    length Pmb = 2%nat /\
    spec.round (11 / 4 * 1) = 3%Z /\
    length Pmb <> Z.to_nat (spec.round (11 / 4 * 1)).
Proof.
  assert (Hgam : 1.24 <> 1) by lra.
  destruct (scalinglength_returns 1.24 (util.convertPressureToPascals 2000)
              900 1 (Finite 0) (Finite 0) Hgam) as [l [lp Hs]].
  eexists _, _. split; [| split; [| split]].
  - unfold muzzleblast.calculatemuzzleblast.
    rewrite linspace_two_points. unfold bind at 1.
    rewrite Hs. unfold bind. reflexivity.
  - unfold muzzleblast.muzzleblast. reflexivity.
  - apply round_two_and_three_quarters.
  - rewrite round_two_and_three_quarters.
    unfold muzzleblast.muzzleblast. simpl. lia.
Qed.

(** ** The composer *)

(** What [_getAnechoicGunshot] returns, by the outcome of its test. *)
Lemma composer_outcome (xmic xgun ngun : vec3)
  (bulletDiam bulletLen barrelLength pexit uexit duration Fs : R)
  (r theta : npfloat) :
  0 <= duration * Fs -> uexit <> 0 ->
  util.computeGeometry xmic xgun = (r, theta) ->
  exists Pmb t thM Pnw,
    muzzleblast.calculatemuzzleblast 1.24 pexit uexit
      ((bulletDiam / 2) ^ 2 * np.pi)
      (muzzleblast.momentumindex (nwave.MachNumber uexit) pexit 1.24)
      theta r bulletDiam barrelLength uexit duration Fs = Returns (Pmb, t) /\
    nwave.coneAngle uexit = Returns thM /\
    length Pnw = length Pmb /\
    if gate uexit theta thM then
      nwave.calculateNWave xgun ngun xmic uexit bulletDiam bulletLen
        (np.mul r (np.sin theta)) duration Fs = Returns Pnw /\
      process._getAnechoicGunshot xmic xgun ngun bulletDiam bulletLen
        barrelLength pexit uexit duration Fs
      = Returns (np.add_arrays Pmb Pnw, Pmb, Pnw)
    else
      Pnw = np.zeros (length Pmb) /\
      process._getAnechoicGunshot xmic xgun ngun bulletDiam bulletLen
        barrelLength pexit uexit duration Fs
      = Returns (Pmb, Pmb, Pnw).
Proof.
  intros Hn Hu HG.
  assert (Hgam : 1.24 <> 1) by lra.
  destruct (calculatemuzzleblast_returns 1.24 pexit uexit
              ((bulletDiam / 2) ^ 2 * np.pi)
              (muzzleblast.momentumindex (nwave.MachNumber uexit) pexit 1.24)
              theta r bulletDiam barrelLength uexit duration Fs Hn Hgam)
    as (Pmb & t & l & lp & _ & _ & Hblast & Hlen & _).
  destruct (calculateNWave_returns xgun ngun xmic uexit bulletDiam bulletLen
              (np.mul r (np.sin theta)) duration Fs Hn Hu)
    as (wv & t' & _ & Hboom & Hlen' & _).
  pose proof (coneAngle_returns uexit Hu) as Hcone.
  set (thM := np.arcsin (Finite (1.0 / uexit))) in *.
  assert (Hcomp :
    process._getAnechoicGunshot xmic xgun ngun bulletDiam bulletLen
      barrelLength pexit uexit duration Fs
    = if gate uexit theta thM
      then Returns (np.add_arrays Pmb wv, Pmb, wv)
      else Returns (Pmb, Pmb, np.zeros (length Pmb))).
  { unfold process._getAnechoicGunshot. rewrite HG, Hblast. unfold bind at 1.
    rewrite Hcone. unfold bind at 1. fold (gate uexit theta thM).
    rewrite Hboom. reflexivity. }
  rewrite Hcomp.
  destruct (gate uexit theta thM) eqn:Hgate.
  - exists Pmb, t, thM, wv. rewrite Hgate.
    split; [exact Hblast | split; [exact Hcone | split; [congruence |]]].
    split; [exact Hboom | reflexivity].
  - exists Pmb, t, thM, (np.zeros (length Pmb)). rewrite Hgate.
    split; [exact Hblast | split; [exact Hcone | split; [apply zeros_length |]]].
    split; reflexivity.
Qed.

(** C1: for positive [duration], [Fs] and exit velocity, the composer
    returns three arrays of the same length, and the total signal is the
    element-wise sum of the muzzle-blast signal and the N-wave signal. *)
Theorem composer_total_is_sum (xmic xgun ngun : vec3)
  (bulletDiam bulletLen barrelLength pexit uexit duration Fs : R) :
  0 < duration -> 0 < Fs -> 0 < uexit ->
  exists sig Pmb Pnw,
    process._getAnechoicGunshot xmic xgun ngun bulletDiam bulletLen
      barrelLength pexit uexit duration Fs = Returns (sig, Pmb, Pnw) /\
    sig = np.add_arrays Pmb Pnw /\
    length sig = length Pmb /\
    length Pnw = length Pmb.
Proof.
  intros Hd HFs Hu.
  assert (Hn : 0 <= duration * Fs) by nra.
  assert (Hu' : uexit <> 0) by lra.
  destruct (util.computeGeometry xmic xgun) as [r theta] eqn:HG.
  destruct (composer_outcome xmic xgun ngun bulletDiam bulletLen barrelLength
              pexit uexit duration Fs r theta Hn Hu' HG)
    as (Pmb & t & thM & Pnw & _ & _ & Hlen & Hout).
  destruct (gate uexit theta thM).
  - destruct Hout as [_ Hout].
    exists (np.add_arrays Pmb Pnw), Pmb, Pnw.
    repeat split; try assumption.
    apply add_arrays_length. now symmetry.
  - destruct Hout as [Hz Hout].
    exists Pmb, Pmb, Pnw.
    repeat split; try assumption.
    subst Pnw. now rewrite add_arrays_zeros.
Qed.

Lemma composer_total_is_sum_witness :
  exists sig Pmb Pnw,
    process._getAnechoicGunshot (0, 0, 100) (0, 0, 0) (0, 0, 1)
      0.009 0.03 0.3 2000 900 0.05 48000 = Returns (sig, Pmb, Pnw) /\
    sig = np.add_arrays Pmb Pnw /\
    length sig = length Pmb /\
    length Pnw = length Pmb.
Proof.
  apply (composer_total_is_sum (0, 0, 100) (0, 0, 0) (0, 0, 1)
           0.009 0.03 0.3 2000 900 0.05 48000); lra.
Defined.

(** C2: for positive [duration], [Fs] and exit velocity, with [theta] the
    angle of [computeGeometry] and [thM = coneAngle(exitVelocity)], the
    composer adds the N-wave of [calculateNWave] exactly when
    [exitVelocity > 341.0] and [theta < pi - thM]; otherwise the N-wave
    signal is all zeros and the total is the muzzle-blast signal itself, as
    it is in particular for every exit velocity up to 341 m/s. *)
Theorem composer_gate (xmic xgun ngun : vec3)
  (bulletDiam bulletLen barrelLength pexit uexit duration Fs : R) :
  0 < duration -> 0 < Fs -> 0 < uexit ->
  let r := fst (util.computeGeometry xmic xgun) in
  let theta := snd (util.computeGeometry xmic xgun) in
  let compose :=
    process._getAnechoicGunshot xmic xgun ngun bulletDiam bulletLen
      barrelLength pexit uexit duration Fs in
  exists Pmb t thM,
    muzzleblast.calculatemuzzleblast 1.24 pexit uexit
      ((bulletDiam / 2) ^ 2 * PI)
      (muzzleblast.momentumindex (nwave.MachNumber uexit) pexit 1.24)
      theta r bulletDiam barrelLength uexit duration Fs = Returns (Pmb, t) /\
    nwave.coneAngle uexit = Returns thM /\
    (341.0 < uexit /\ np.lt theta (np.sub (Finite PI) thM) = true ->
     exists Pnw,
       nwave.calculateNWave xgun ngun xmic uexit bulletDiam bulletLen
         (np.mul r (np.sin theta)) duration Fs = Returns Pnw /\
       compose = Returns (np.add_arrays Pmb Pnw, Pmb, Pnw)) /\
    (~ (341.0 < uexit /\ np.lt theta (np.sub (Finite PI) thM) = true) ->
     compose = Returns (Pmb, Pmb, np.zeros (length Pmb))) /\
    (uexit <= 341.0 ->
     compose = Returns (Pmb, Pmb, np.zeros (length Pmb))).
Proof.
  intros Hd HFs Hu r theta compose.
  assert (Hn : 0 <= duration * Fs) by nra.
  assert (Hu' : uexit <> 0) by lra.
  assert (HG : util.computeGeometry xmic xgun = (r, theta))
    by (subst r theta; now destruct (util.computeGeometry xmic xgun)).
  destruct (composer_outcome xmic xgun ngun bulletDiam bulletLen barrelLength
              pexit uexit duration Fs r theta Hn Hu' HG)
    as (Pmb & t & thM & Pnw & Hblast & Hcone & Hlen & Hout).
  exists Pmb, t, thM.
  split; [exact Hblast | split; [exact Hcone |]].
  assert (Hgate : gate uexit theta thM = true <->
                  341.0 < uexit /\ np.lt theta (np.sub (Finite PI) thM) = true).
  { unfold gate. rewrite andb_true_iff, Rltb_spec. reflexivity. }
  destruct (gate uexit theta thM).
  - destruct Hout as [Hboom Hout].
    assert (Hyes : 341.0 < uexit /\ np.lt theta (np.sub (Finite PI) thM) = true)
      by (now apply Hgate).
    split; [| split].
    + intros _. exists Pnw. split; assumption.
    + intros Hno. contradiction.
    + intros Hsub. lra.
  - destruct Hout as [Hz Hout]. subst Pnw.
    split; [| split].
    + intros Hyes. apply Hgate in Hyes. discriminate.
    + intros _. exact Hout.
    + intros _. exact Hout.
Qed.

Lemma composer_gate_witness :
  exists Pmb,
    process._getAnechoicGunshot (0, 0, 100) (0, 0, 0) (0, 0, 1)
      0.009 0.03 0.3 2000 200 0.05 48000
    = Returns (Pmb, Pmb, np.zeros (length Pmb)).
Proof.
  assert (Hd : 0 < 0.05) by lra.
  assert (HFs : 0 < 48000) by lra.
  assert (Hu : 0 < 200) by lra.
  destruct (composer_gate (0, 0, 100) (0, 0, 0) (0, 0, 1)
              0.009 0.03 0.3 2000 200 0.05 48000 Hd HFs Hu)
    as (Pmb & t & thM & _ & _ & _ & _ & Hsub).
  exists Pmb. apply Hsub. lra.
Defined.

(** ** Records as dictionaries *)

(** X1: unpacking a packed geometry gives back the label and the three
    arrays, the label first. *)
Theorem geometry_round_trip (xgun xmic ngun : list R) (label : String.string) :
  util.unpackGeometry (util.packGeometry xgun xmic ngun label)
  = Found (VStr label, VList xgun, VList xmic, VList ngun).
Proof. reflexivity. Qed.

(** X2: unpacking packed ballistics gives back the seven fields, the two
    labels first. *)
Theorem ballistics_round_trip (bulletDiam bulletLen barrelLength pexit uexit : R)
  (gunlabel ammolabel : String.string) :
  util.unpackBallistics
    (util.packBallistics bulletDiam bulletLen barrelLength pexit uexit
       gunlabel ammolabel)
  = Found (VStr gunlabel, VStr ammolabel, VFloat bulletDiam, VFloat bulletLen,
           VFloat barrelLength, VFloat pexit, VFloat uexit).
Proof. reflexivity. Qed.

Lemma dict_get_found_or_missing (d : dict) (k : String.string) :
  (exists v, dict_get d k = Found v) \/ dict_get d k = KeyError k.
Proof.
  induction d as [| [k' v'] d IH]; simpl.
  - now right.
  - destruct (String.eqb k k'); [left; now exists v' | exact IH].
Qed.

(** X3: on any dictionary [unpackGeometry] either finds its four keys and
    returns their values, or raises [KeyError] for one of the four that is
    missing. *)
Theorem unpackGeometry_missing_key (d : dict) :
  (exists label xgun xmic ngun,
     dict_get d "xgun" = Found xgun /\ dict_get d "xmic" = Found xmic /\
     dict_get d "ngun" = Found ngun /\ dict_get d "label" = Found label /\
     util.unpackGeometry d = Found (label, xgun, xmic, ngun)) \/
  (exists k,
     In k ["xgun"; "xmic"; "ngun"; "label"]%string /\
     dict_get d k = KeyError k /\
     util.unpackGeometry d = KeyError k).
Proof.
  unfold util.unpackGeometry.
  destruct (dict_get_found_or_missing d "xgun") as [[a Ha] | Ha]; rewrite Ha;
    [| right; exists "xgun"%string; simpl; auto].
  destruct (dict_get_found_or_missing d "xmic") as [[b Hb] | Hb]; rewrite Hb;
    [| right; exists "xmic"%string; simpl; auto].
  destruct (dict_get_found_or_missing d "ngun") as [[c Hc] | Hc]; rewrite Hc;
    [| right; exists "ngun"%string; simpl; auto].
  destruct (dict_get_found_or_missing d "label") as [[e He] | He]; rewrite He;
    [| right; exists "label"%string; simpl; auto 6].
  left. exists e, a, b, c. simpl. auto.
Qed.

(** ** The bore area *)

(** X4: [caliberToM] returns the diameter [0.0254*cal] and the area of the
    disc of that diameter, which is positive for a non-zero caliber. *)
Theorem caliberToM_area (cal : R) :
  fst (util.caliberToM cal) = 0.0254 * cal /\
  snd (util.caliberToM cal) = PI * fst (util.caliberToM cal) ^ 2 / 4 /\
  (cal <> 0 -> 0 < snd (util.caliberToM cal)).
Proof.
  unfold util.caliberToM, np.pi; simpl fst; simpl snd.
  split; [lra | split; [field |]].
  intros H. pose proof PI_RGT_0 as Hpi.
  assert (Hd : cal * 0.0254 / 2 <> 0) by lra.
  assert (Hsq : 0 < (cal * 0.0254 / 2) ^ 2).
  { simpl. rewrite Rmult_1_r.
    destruct (Rlt_dec 0 (cal * 0.0254 / 2)); nra. }
  nra.
Qed.

Lemma caliberToM_area_witness : 0 < snd (util.caliberToM 0.38).
Proof. apply (caliberToM_area 0.38). lra. Defined.

(** ** The normalised output *)

Lemma maximum_finite (a b : R) :
  np.maximum (Finite a) (Finite b) = Finite (if Rltb a b then b else a).
Proof. unfold np.maximum. rewrite lt_finite. now destruct (Rltb a b). Qed.

(** The running maximum of the magnitudes of a finite signal. *)
Lemma fold_maximum_abs (l : list R) (a : R) :
  exists m,
    fold_left np.maximum (map np.abs (map Finite l)) (Finite a) = Finite m /\
    a <= m /\
    (forall x, In x l -> Rabs x <= m) /\
    (m = a \/ exists x, In x l /\ Rabs x = m).
Proof.
  revert a. induction l as [| x l IH]; intros a.
  - exists a. simpl.
    split; [reflexivity | split; [lra | split; [intros x [] | now left]]].
  - cbn [map fold_left].
    change (np.abs (Finite x)) with (Finite (Rabs x)). rewrite maximum_finite.
    destruct (IH (if Rltb a (Rabs x) then Rabs x else a))
      as (m & Hm & Hle & Hall & Hatt).
    exists m. split; [exact Hm |].
    unfold Rltb in *. destruct (Rlt_dec a (Rabs x)) as [Hlt | Hge].
    + split; [lra | split].
      * intros y [-> | Hy]; [exact Hle | now apply Hall].
      * right. destruct Hatt as [-> | (y & Hy & Hy')].
        -- exists x. split; [now left | reflexivity].
        -- exists y. split; [now right | exact Hy'].
    + split; [exact Hle | split].
      * intros y [-> | Hy]; [lra | now apply Hall].
      * destruct Hatt as [-> | (y & Hy & Hy')]; [now left |].
        right. exists y. split; [now right | exact Hy'].
Qed.

Lemma amax_abs_finite (x : R) (l : list R) :
  exists m,
    np.amax (map np.abs (map Finite (x :: l))) = Returns (Finite m) /\
    (forall y, In y (x :: l) -> Rabs y <= m) /\
    (exists y, In y (x :: l) /\ Rabs y = m).
Proof.
  destruct (fold_maximum_abs l (Rabs x)) as (m & Hm & Hle & Hall & Hatt).
  exists m. split; [| split].
  - cbn [map np.amax].
    change (np.abs (Finite x)) with (Finite (Rabs x)). now rewrite Hm.
  - intros y [<- | Hy]; [exact Hle | now apply Hall].
  - destruct Hatt as [-> | (y & Hy & Hy')].
    + exists x. split; [now left | reflexivity].
    + exists y. split; [now right | exact Hy'].
Qed.

Lemma map_div_finite (m : R) (l : list R) :
  m <> 0 ->
  map (fun x => np.div x (Finite m)) (map Finite l)
  = map Finite (map (fun x => x / m) l).
Proof.
  intros H. rewrite !map_map. apply map_ext. intros x.
  now rewrite div_finite.
Qed.

Lemma Rabs_div_le_1 (x m : R) : 0 < m -> Rabs x <= m -> -1 <= x / m <= 1.
Proof.
  intros Hm Hx.
  assert (Hb : - m <= x <= m).
  { revert Hx. unfold Rabs. destruct (Rcase_abs x); lra. }
  assert (Hq : x / m * m = x) by (field; lra).
  set (q := x / m) in *.
  split.
  - destruct (Rle_dec (-1) q) as [H | H]; [exact H | exfalso; nra].
  - destruct (Rle_dec q 1) as [H | H]; [exact H | exfalso; nra].
Qed.

(** X5: for a finite signal with a non-zero sample, [recordWave] writes as
    many samples as it received, all within [[-1, 1]], and one of them of
    magnitude exactly 1. *)
Theorem recordWave_normalised (xs : list R) :
  (exists x, In x xs /\ x <> 0) ->
  exists ys,
    util.recordWave (map Finite xs) = Returns (map Finite ys) /\
    length ys = length xs /\
    (forall y, In y ys -> -1 <= y <= 1) /\
    (exists y, In y ys /\ Rabs y = 1).
Proof.
  intros (x0 & Hin & Hne).
  destruct xs as [| x l]; [destruct Hin |].
  destruct (amax_abs_finite x l) as (m & Hm & Hall & (y & Hy & Hatt)).
  assert (Hpos : 0 < m).
  { pose proof (Hall x0 Hin). pose proof (Rabs_pos_lt x0 Hne). lra. }
  exists (map (fun z => z / m) (x :: l)).
  unfold util.recordWave. rewrite Hm. unfold bind.
  rewrite map_div_finite by lra.
  split; [reflexivity | split; [now rewrite length_map | split]].
  - intros z Hz. apply in_map_iff in Hz. destruct Hz as (w & <- & Hw).
    apply Rabs_div_le_1; [exact Hpos | now apply Hall].
  - exists (y / m).
    split; [apply (in_map (fun z => z / m)); exact Hy |].
    unfold Rdiv. rewrite Rabs_mult, Hatt, Rabs_inv, (Rabs_pos_eq m) by lra.
    field. lra.
Qed.

Lemma recordWave_normalised_witness :
  exists ys,
    util.recordWave (map Finite [1; -4; 2]) = Returns (map Finite ys) /\
    length ys = length [1; -4; 2] /\
    (forall y, In y ys -> -1 <= y <= 1) /\
    (exists y, In y ys /\ Rabs y = 1).
Proof.
  apply (recordWave_normalised [1; -4; 2]).
  exists 1. split; [now left | lra].
Defined.

Lemma fold_maximum_zeros (n : nat) :
  fold_left np.maximum (map np.abs (np.zeros n)) (Finite 0) = Finite 0.
Proof.
  unfold np.zeros. induction n as [| n IH]; [reflexivity |].
  cbn [repeat map fold_left].
  change (np.abs (Finite 0)) with (Finite (Rabs 0)).
  rewrite Rabs_R0, maximum_finite.
  rewrite Rltb_false by lra. exact IH.
Qed.

(** X6: [recordWave] raises [ValueError] on an empty signal, and for a
    signal of zeros it writes [nan] for every sample (0/0). *)
Theorem recordWave_silence (n : nat) :
  util.recordWave [] = Raises ValueError /\
  util.recordWave (np.zeros (S n)) = Returns (repeat NaN (S n)).
Proof.
  split; [reflexivity |].
  unfold util.recordWave.
  assert (Hm : np.amax (map np.abs (np.zeros (S n))) = Returns (Finite 0)).
  { unfold np.zeros. cbn [repeat map np.amax].
    change (np.abs (Finite 0)) with (Finite (Rabs 0)). rewrite Rabs_R0.
    f_equal. apply (fold_maximum_zeros n). }
  rewrite Hm. unfold bind. unfold np.zeros. f_equal.
  generalize (S n) as k. intros k. induction k as [| k IH]; [reflexivity |].
  cbn [repeat map]. rewrite div_zero_zero. f_equal. exact IH.
Qed.

(** ** The muzzle-blast parameters *)

Lemma log_finite (x : R) : 0 < x -> np.log (Finite x) = Finite (ln x).
Proof.
  intros H. unfold np.log. rewrite Rltb_false by lra.
  now rewrite Reqb_false by lra.
Qed.

Lemma ln_pos (x : R) : 1 < x -> 0 < ln x.
Proof. intros H. rewrite <- ln_1. apply ln_increasing; lra. Qed.

(** The radicand of [X] and the argument of the logarithm are positive
    whatever the scaled distance [rb]. *)
Lemma blast_radicand_pos (rb : R) : 0 < rb * rb + 1.04 * rb + 1.88.
Proof. nra. Qed.

Lemma blast_log_arg_pos (rb : R) :
  0 < 2 * sqrt (rb * rb + 1.04 * rb + 1.88) + 2 * rb + 1.04.
Proof.
  pose proof (blast_radicand_pos rb) as Hr.
  pose proof (sqrt_lt_R0 _ Hr) as HX.
  pose proof (sqrt_sqrt _ (Rlt_le _ _ Hr)) as HXX.
  set (X := sqrt (rb * rb + 1.04 * rb + 1.88)) in *.
  destruct (Rle_dec 0 (rb + 0.52)) as [Hp | Hn]; [lra |].
  assert (Hn' : rb + 0.52 < 0) by lra.
  destruct (Rlt_dec (- (rb + 0.52)) X) as [Hlt | Hge]; [lra |].
  exfalso. assert (Hle : X <= - (rb + 0.52)) by lra.
  assert (X * X <= (rb + 0.52) * (rb + 0.52)) by nra.
  nra.
Qed.

Lemma timeOfArrival_value (r lp : R) :
  lp <> 0 ->
  muzzleblast.timeOfArrival (Finite r) (Finite lp)
  = Finite
      (lp
       * (sqrt (r / lp * (r / lp) + 1.04 * (r / lp) + 1.88)
          - 0.52
            * ln (2 * sqrt (r / lp * (r / lp) + 1.04 * (r / lp) + 1.88)
                  + 2 * (r / lp) + 1.04)
          - 0.56)
       / 341.0).
Proof.
  intros Hlp. unfold muzzleblast.timeOfArrival.
  rewrite div_finite by assumption.
  pose proof (blast_radicand_pos (r / lp)) as Hr.
  pose proof (blast_log_arg_pos (r / lp)) as Hl.
  np_finite. rewrite log_finite by exact Hl. np_finite. reflexivity.
Qed.

(** *** Infinities *)

Lemma signed_inf_pos (x : R) : 0 < x -> np.signed_inf x = PInf.
Proof.
  intros H. unfold np.signed_inf.
  now rewrite Reqb_false, Rltb_true by lra.
Qed.

Lemma signed_inf_neg (x : R) : x < 0 -> np.signed_inf x = NInf.
Proof.
  intros H. unfold np.signed_inf.
  now rewrite Reqb_false, Rltb_false by lra.
Qed.

Lemma div_by_zero (x : R) : np.div (Finite x) (Finite 0) = np.signed_inf x.
Proof. unfold np.div. now rewrite Reqb_true. Qed.

Lemma mul_pos_pinf (x : R) : 0 < x -> np.mul (Finite x) PInf = PInf.
Proof. intros H. unfold np.mul. now apply signed_inf_pos. Qed.

Lemma mul_pos_ninf (x : R) : 0 < x -> np.mul (Finite x) NInf = NInf.
Proof. intros H. unfold np.mul. apply signed_inf_neg. lra. Qed.

Lemma timeOfArrival_zero_length (r : R) :
  muzzleblast.timeOfArrival (Finite r) (Finite 0) = NaN.
Proof.
  unfold muzzleblast.timeOfArrival.
  destruct (Req_dec_T r 0) as [-> | Hr].
  - now rewrite div_zero_zero.
  - rewrite div_by_zero.
    destruct (Rlt_dec 0 r) as [Hp | Hn].
    + rewrite signed_inf_pos by exact Hp.
      rewrite !mul_pos_pinf by lra. reflexivity.
    + rewrite signed_inf_neg by lra.
      rewrite !mul_pos_ninf by lra. reflexivity.
Qed.

(** X7: for a finite distance and a finite weighted scaling length,
    [timeOfArrival] is a finite number whenever the scaling length is not
    zero (the square root and the logarithm stay in their domains), and it
    is [nan] when the scaling length is zero. *)
Theorem timeOfArrival_finite (r lp : R) :
  (lp <> 0 ->
   exists ta, muzzleblast.timeOfArrival (Finite r) (Finite lp) = Finite ta) /\
  (lp = 0 -> muzzleblast.timeOfArrival (Finite r) (Finite lp) = NaN).
Proof.
  split.
  - intros H. eexists. apply timeOfArrival_value. exact H.
  - intros ->. apply timeOfArrival_zero_length.
Qed.

Lemma timeOfArrival_finite_witness :
  (exists ta, muzzleblast.timeOfArrival (Finite 100) (Finite 2) = Finite ta) /\
  muzzleblast.timeOfArrival (Finite 100) (Finite 0) = NaN.
Proof.
  split.
  - apply (timeOfArrival_finite 100 2). lra.
  - apply (timeOfArrival_finite 100 0). reflexivity.
Defined.

Lemma div_pos (x y : R) : 0 < x -> 0 < y -> 0 < x / y.
Proof. intros Hx Hy. apply Rdiv_lt_0_compat; assumption. Qed.

Lemma scaled_distance_lt (r lp : R) :
  0 < lp -> (r / lp < 50 <-> r < 50 * lp).
Proof.
  intros Hlp.
  assert (Hq : r / lp * lp = r) by (field; lra).
  set (q := r / lp) in *. split; intros H.
  - nra.
  - destruct (Rlt_dec q 50) as [Hlt | Hge]; [exact Hlt | exfalso; nra].
Qed.

(** X8: for a positive distance and a positive weighted scaling length
    [peakOverpressure] is a finite positive number: the near-field formula
    when [r < 50*lp], the far-field one from [r = 50*lp] on. *)
Theorem peakOverpressure_positive (r lp : R) :
  0 < r -> 0 < lp ->
  exists Pb,
    muzzleblast.peakOverpressure (Finite r) (Finite lp) = Finite Pb /\
    0 < Pb /\
    (r < 50 * lp ->
     Pb = (0.89 * (lp / r) + 1.61 * (lp / r * (lp / r))) / 100) /\
    (50 * lp <= r ->
     Pb = 3.48975 / (r / lp * sqrt (ln (33119.0 * (r / lp)))) / 100).
Proof.
  intros Hr Hlp. unfold muzzleblast.peakOverpressure.
  pose proof (div_pos r lp Hr Hlp) as Hrb.
  pose proof (div_pos lp r Hlp Hr) as Hinv.
  pose proof (scaled_distance_lt r lp Hlp) as Hiff.
  rewrite !div_finite by lra. rewrite lt_finite.
  destruct (Rlt_dec (r / lp) 50) as [Hnear | Hfar].
  - rewrite Rltb_true by exact Hnear. np_finite.
    eexists. split; [reflexivity | split; [| split]].
    + assert (0 < lp / r * (lp / r)) by nra. lra.
    + intros _. reflexivity.
    + intros H. exfalso. apply Hiff in Hnear. lra.
  - assert (Hge : 50 <= r / lp) by lra.
    rewrite Rltb_false by exact Hge.
    assert (Hln : 0 < ln (33119.0 * (r / lp))) by (apply ln_pos; lra).
    assert (Hs : 0 < sqrt (ln (33119.0 * (r / lp)))) by (now apply sqrt_lt_R0).
    assert (Hden : 0 < r / lp * sqrt (ln (33119.0 * (r / lp)))) by nra.
    rewrite mul_finite, log_finite by lra.
    np_finite.
    eexists. split; [reflexivity | split; [| split]].
    + assert (0 < 3.48975 / (r / lp * sqrt (ln (33119.0 * (r / lp)))))
        by (apply div_pos; lra).
      lra.
    + intros H. exfalso. apply Hiff in H. lra.
    + intros _. reflexivity.
Qed.

Lemma peakOverpressure_positive_witness :
  exists Pb,
    muzzleblast.peakOverpressure (Finite 100) (Finite 1) = Finite Pb /\
    0 < Pb /\
    (100 < 50 * 1 ->
     Pb = (0.89 * (1 / 100) + 1.61 * (1 / 100 * (1 / 100))) / 100) /\
    (50 * 1 <= 100 ->
     Pb = 3.48975 / (100 / 1 * sqrt (ln (33119.0 * (100 / 1)))) / 100).
Proof. apply (peakOverpressure_positive 100 1); lra. Defined.

(** X9: in the near field ([r/lp < 50]) the arrival time and the positive
    phase duration add up to [(r + G*lp)/ainf], [G] being the correction
    term of [positivePhaseDuration]: the square root and the logarithm of
    the two functions cancel. *)
Theorem positive_phase_end_near_field (r lp l L Vp : R) :
  lp <> 0 -> Vp * l <> 0 -> r / lp < 50 ->
  exists ta tau,
    muzzleblast.timeOfArrival (Finite r) (Finite lp) = Finite ta /\
    muzzleblast.positivePhaseDuration (Finite r) (Finite lp) (Finite l) L Vp
    = Finite tau /\
    ta + tau
    = (r + lp * (0.09 - 0.00379 * (L * 341.0 / (Vp * l))
                 + 1.07 * (1 - 1.36 * exp (-0.049 * (r / lp))) * l / lp))
      / 341.0.
Proof.
  intros Hlp HVl Hnear.
  pose proof (blast_radicand_pos (r / lp)) as Hr.
  pose proof (blast_log_arg_pos (r / lp)) as Hl.
  eexists _, _. split; [apply timeOfArrival_value; exact Hlp |].
  unfold muzzleblast.positivePhaseDuration.
  rewrite !div_finite by assumption.
  np_finite_with ltac:(idtac; first [assumption | lra]).
  rewrite Rltb_true by exact Hnear.
  rewrite log_finite by exact Hl.
  np_finite. split; [reflexivity |].
  assert (Hq : r / lp * lp = r) by (field; assumption).
  set (rb := r / lp) in *.
  set (X := sqrt (rb * rb + 1.04 * rb + 1.88)).
  set (lg := ln (2 * X + 2 * rb + 1.04)).
  set (G1 := 0.00379 * (L * 341.0 / (Vp * l))).
  set (G2 := 1.07 * (1 - 1.36 * exp (-0.049 * rb)) * l / lp).
  unfold Rdiv. lra.
Qed.

Lemma positive_phase_end_near_field_witness :
  exists ta tau,
    muzzleblast.timeOfArrival (Finite 10) (Finite 1) = Finite ta /\
    muzzleblast.positivePhaseDuration (Finite 10) (Finite 1) (Finite 1) 1 1
    = Finite tau /\
    ta + tau
    = (10 + 1 * (0.09 - 0.00379 * (1 * 341.0 / (1 * 1))
                 + 1.07 * (1 - 1.36 * exp (-0.049 * (10 / 1))) * 1 / 1))
      / 341.0.
Proof. apply (positive_phase_end_near_field 10 1 1 1 1); lra. Defined.

Lemma sqrt_negative (x : R) : x < 0 -> np.sqrt (Finite x) = NaN.
Proof. intros H. unfold np.sqrt. now rewrite Rltb_true. Qed.

Lemma mul_nan_r (a : npfloat) : np.mul a NaN = NaN.
Proof. now destruct a. Qed.

Lemma add_nan_r (a : npfloat) : np.add a NaN = NaN.
Proof. now destruct a. Qed.

(** X10: [scalinglength] raises [ZeroDivisionError] when [gammae = 1];
    otherwise, when [mu^2*sin(theta)^2 > 1], it raises nothing and returns
    [nan] as the weighted scaling length. *)
Theorem scalinglength_failures (gammae pe ue Ae : R) (mu theta : R) :
  (gammae = 1 ->
   muzzleblast.scalinglength gammae pe ue Ae (Finite mu) (Finite theta)
   = Raises ZeroDivisionError) /\
  (gammae <> 1 -> 1 < mu * mu * (sin theta * sin theta) ->
   exists l,
     muzzleblast.scalinglength gammae pe ue Ae (Finite mu) (Finite theta)
     = Returns (l, NaN)).
Proof.
  unfold muzzleblast.scalinglength. split.
  - intros ->. rewrite (Reqb_true (1 - 1) 0) by lra. reflexivity.
  - intros Hg Hrad. rewrite Reqb_false by (intros H; apply Hg; lra).
    eexists. f_equal. f_equal.
    np_finite.
    rewrite (sqrt_negative (1 - mu * mu * (sin theta * sin theta))) by lra.
    now rewrite add_nan_r, mul_nan_r.
Qed.

Lemma scalinglength_failures_witness :
  muzzleblast.scalinglength 1 2000 900 1 (Finite 2) (Finite (PI / 2))
  = Raises ZeroDivisionError /\
  exists l,
    muzzleblast.scalinglength 1.24 2000 900 1 (Finite 2) (Finite (PI / 2))
    = Returns (l, NaN).
Proof.
  split.
  - apply (scalinglength_failures 1 2000 900 1 2 (PI / 2)). reflexivity.
  - apply (scalinglength_failures 1.24 2000 900 1 2 (PI / 2)); [lra |].
    rewrite sin_PI2. lra.
Defined.

(** The energy flux at the muzzle is not negative. *)
Lemma energy_flux_nonneg (gammae pe ue Ae : R) :
  1 < gammae -> 0 <= pe -> 0 <= ue -> 0 <= Ae ->
  0 <= (gammae * (pe / 101.0e3) * ue) / (gammae - 1)
       * (1 + (gammae - 1) / 2 * nwave.MachNumber ue ^ 2) * Ae
       / (101.0e3 * 341.0).
Proof.
  intros Hg Hpe Hue HAe.
  assert (H1 : 0 <= gammae * (pe / 101.0e3) * ue).
  { apply Rmult_le_pos; [apply Rmult_le_pos |]; lra. }
  assert (H2 : 0 <= (gammae * (pe / 101.0e3) * ue) / (gammae - 1)).
  { unfold Rdiv. apply Rmult_le_pos; [exact H1 |].
    apply Rlt_le, Rinv_0_lt_compat. lra. }
  assert (H3 : 0 <= nwave.MachNumber ue ^ 2) by apply pow2_ge_0.
  assert (H4 : 0 <= 1 + (gammae - 1) / 2 * nwave.MachNumber ue ^ 2) by nra.
  assert (H5 : 0 <= (gammae * (pe / 101.0e3) * ue) / (gammae - 1)
                    * (1 + (gammae - 1) / 2 * nwave.MachNumber ue ^ 2) * Ae).
  { apply Rmult_le_pos; [apply Rmult_le_pos |]; assumption. }
  unfold Rdiv at 1. apply Rmult_le_pos; [exact H5 |].
  apply Rlt_le, Rinv_0_lt_compat. lra.
Qed.

(** The direction factor of the weighted scaling length. *)
Lemma direction_ratio_bounds (mu theta : R) :
  -1 <= mu <= 1 ->
  0 <= 1 - mu * mu * (sin theta * sin theta) /\
  0 <= mu * cos theta + sqrt (1 - mu * mu * (sin theta * sin theta)) <= 2.
Proof.
  intros Hmu.
  pose proof (sin2_cos2 theta) as Hsc. unfold Rsqr in Hsc.
  set (s := sin theta) in *. set (c := cos theta) in *.
  assert (Hmm : mu * mu <= 1) by nra.
  assert (Hss : 0 <= s * s) by nra.
  assert (Hcc : 0 <= c * c) by nra.
  assert (Hs1 : s * s <= 1) by nra.
  assert (Hrad : 0 <= 1 - mu * mu * (s * s)) by nra.
  split; [exact Hrad |].
  pose proof (sqrt_pos (1 - mu * mu * (s * s))) as Hq.
  pose proof (sqrt_sqrt _ Hrad) as Hqq.
  set (q := sqrt (1 - mu * mu * (s * s))) in *.
  assert (Hmc : mu * c * (mu * c) <= q * q) by nra.
  assert (Hq1 : q <= 1).
  { destruct (Rle_dec q 1) as [H | H]; [exact H | exfalso; nra]. }
  assert (Hmc1 : mu * c <= 1).
  { destruct (Rle_dec (mu * c) 1) as [H | H]; [exact H | exfalso; nra]. }
  split.
  - destruct (Rle_dec 0 (mu * c + q)) as [H | H]; [exact H | exfalso; nra].
  - lra.
Qed.

(** X11: for [gammae > 1], non-negative pressure, exit speed and bore
    area, and a momentum index in [[-1, 1]], [scalinglength] returns two
    finite lengths with [0 <= lp <= 20*l], where
    [lp = l*(mu*cos(theta) + sqrt(1 - mu^2*sin(theta)^2))*10]. *)
Theorem scalinglength_nonneg (gammae pe ue Ae : R) (mu theta : R) :
  1 < gammae -> 0 <= pe -> 0 <= ue -> 0 <= Ae -> -1 <= mu <= 1 ->
  exists l lp,
    muzzleblast.scalinglength gammae pe ue Ae (Finite mu) (Finite theta)
    = Returns (Finite l, Finite lp) /\
    0 <= l /\
    lp = l * (mu * cos theta + sqrt (1 - mu * mu * (sin theta * sin theta))) * 10 /\
    0 <= lp <= 20 * l.
Proof.
  intros Hg Hpe Hue HAe Hmu.
  pose proof (energy_flux_nonneg gammae pe ue Ae Hg Hpe Hue HAe) as Hflux.
  destruct (direction_ratio_bounds mu theta Hmu) as [Hrad Hratio].
  unfold muzzleblast.scalinglength. rewrite Reqb_false by lra.
  rewrite sqrt_finite by exact Hflux.
  np_finite.
  eexists _, _. split; [reflexivity |].
  pose proof (sqrt_pos ((gammae * (pe / 101.0e3) * ue) / (gammae - 1)
       * (1 + (gammae - 1) / 2 * nwave.MachNumber ue ^ 2) * Ae
       / (101.0e3 * 341.0))) as Hl.
  split; [exact Hl | split; [reflexivity |]].
  nra.
Qed.

Lemma scalinglength_nonneg_witness :
  exists l lp,
    muzzleblast.scalinglength 1.24 2000 900 1 (Finite (1 / 2)) (Finite 0)
    = Returns (Finite l, Finite lp) /\
    0 <= l /\
    lp = l * (1 / 2 * cos 0 + sqrt (1 - 1 / 2 * (1 / 2) * (sin 0 * sin 0))) * 10 /\
    0 <= lp <= 20 * l.
Proof. apply (scalinglength_nonneg 1.24 2000 900 1 (1 / 2) 0); lra. Defined.

(** ** The Mach cone of a supersonic projectile *)

Lemma inv_gt_1 (M : R) : 1 < M -> 0 < 1.0 / M < 1.
Proof.
  intros H.
  assert (H0 : 0 < / M) by (apply Rinv_0_lt_compat; lra).
  assert (H1 : / M < / 1) by (apply Rinv_lt_contravar; lra).
  rewrite Rinv_1 in H1. unfold Rdiv. lra.
Qed.

Lemma asin_pos (x : R) : 0 < x < 1 -> 0 < asin x < PI / 2.
Proof.
  intros Hx.
  assert (Hb : - 1 < x < 1) by lra.
  pose proof (asin_bound_lt x Hb) as [Hlo Hhi].
  pose proof (sin_asin x ltac:(lra)) as Hs.
  pose proof PI_RGT_0 as Hpi.
  split; [| exact Hhi].
  destruct (Rlt_dec 0 (asin x)) as [Hpos | Hneg]; [exact Hpos | exfalso].
  destruct (Req_dec (asin x) 0) as [Hz | Hnz].
  - rewrite Hz, sin_0 in Hs. lra.
  - assert (Hlt : asin x < 0) by lra.
    pose proof (sin_lt_0_var (asin x) ltac:(lra) Hlt). lra.
Qed.

(** X12: for Mach numbers [1 < M1 < M2], [coneAngle] returns finite angles
    in [(0, pi/2)] whose sines are [1/M1] and [1/M2], the faster projectile
    having the narrower cone. *)
Theorem coneAngle_supersonic (M1 M2 : R) :
  1 < M1 -> M1 < M2 ->
  exists th1 th2,
    nwave.coneAngle M1 = Returns (Finite th1) /\
    nwave.coneAngle M2 = Returns (Finite th2) /\
    sin th1 = 1 / M1 /\ sin th2 = 1 / M2 /\
    0 < th2 < th1 /\ th1 < PI / 2.
Proof.
  intros H1 H12.
  assert (H2 : 1 < M2) by lra.
  pose proof (inv_gt_1 M1 H1) as Hi1.
  pose proof (inv_gt_1 M2 H2) as Hi2.
  assert (Hlt : 1.0 / M2 < 1.0 / M1).
  { unfold Rdiv. apply Rmult_lt_compat_l; [lra |].
    apply Rinv_lt_contravar; nra. }
  pose proof (asin_pos _ Hi1) as Ha1.
  pose proof (asin_pos _ Hi2) as Ha2.
  exists (asin (1.0 / M1)), (asin (1.0 / M2)).
  unfold nwave.coneAngle.
  rewrite !Reqb_false by lra. rewrite !arcsin_finite by lra.
  pose proof (sin_asin (1.0 / M1) ltac:(lra)) as Hs1.
  pose proof (sin_asin (1.0 / M2) ltac:(lra)) as Hs2.
  split; [reflexivity | split; [reflexivity |]].
  split; [rewrite Hs1; lra | split; [rewrite Hs2; lra |]].
  split; [| lra]. split; [lra |].
  apply sin_increasing_0; try lra.
Qed.

Lemma coneAngle_supersonic_witness :
  exists th1 th2,
    nwave.coneAngle 2 = Returns (Finite th1) /\
    nwave.coneAngle 3 = Returns (Finite th2) /\
    sin th1 = 1 / 2 /\ sin th2 = 1 / 3 /\
    0 < th2 < th1 /\ th1 < PI / 2.
Proof. apply (coneAngle_supersonic 2 3); lra. Defined.

(** ** The arrival time of the N-wave *)

Lemma coneAngle_subsonic (M : R) :
  -1 < M < 1 -> M <> 0 -> nwave.coneAngle M = Returns NaN.
Proof.
  intros H Hne. unfold nwave.coneAngle. rewrite Reqb_false by assumption.
  rewrite arcsin_nan; [reflexivity |].
  destruct (Rlt_dec 0 M) as [Hp | Hn].
  - right. apply inv_lt_1. lra.
  - left. assert (Hm : 0 < - M < 1) by lra.
    pose proof (inv_lt_1 (- M) Hm).
    rewrite (inv_opp M) by lra. lra.
Qed.

Lemma missDistance_zero_direction (xgun xmic : vec3) :
  nwave.missDistance xgun (0, 0, 0) xmic = (NaN, NaN).
Proof.
  unfold nwave.missDistance. simpl (dot (0, 0, 0) (0, 0, 0)).
  replace (0 * 0 + 0 * 0 + 0 * 0) with 0 by lra.
  rewrite (sqrt_finite 0), sqrt_0 by lra.
  unfold np_vdiv. rewrite div_zero_zero.
  destruct (vsub xmic xgun) as [[m0 m1] m2].
  unfold np_dot. rewrite !mul_nan_r.
  destruct (np.sqrt (Finite (dot (m0, m1, m2) (m0, m1, m2)))); reflexivity.
Qed.



(** ** The N-wave parameters of a supersonic projectile *)

Lemma mach_square_gt_1 (v : R) :
  341 < v -> 0 < nwave.MachNumber v * nwave.MachNumber v - 1 /\ 1 < nwave.MachNumber v.
Proof.
  intros H. unfold nwave.MachNumber.
  assert (HM : 1 < v / 341.0) by lra. split; [nra | exact HM].
Qed.

Lemma Rpower_pos (x y : R) : 0 < Rpower x y.
Proof. unfold Rpower. apply exp_pos. Qed.

Lemma nWaveOverPressure_value (v d l x : R) :
  341 < v -> 0 < l -> 0 < x ->
  nwave.nWaveOverPressure v d l (Finite x)
  = Finite (0.53 * d
            * Rpower (nwave.MachNumber v * nwave.MachNumber v - 1) 0.125
            / (Rpower x 0.75 * Rpower l 0.25) * 101.0e3).
Proof.
  intros Hv Hl Hx. destruct (mach_square_gt_1 v Hv) as [HM _].
  unfold nwave.nWaveOverPressure.
  rewrite square_finite, sub_finite.
  rewrite !power_finite by assumption.
  pose proof (Rpower_pos x 0.75). pose proof (Rpower_pos l 0.25).
  assert (0 < Rpower x 0.75 * Rpower l 0.25) by nra.
  np_finite. reflexivity.
Qed.

Lemma nWaveDuration_value (v d l x : R) :
  341 < v -> 0 < l -> 0 < x ->
  nwave.nWaveDuration v d l (Finite x)
  = Finite (1.82 * d * (nwave.MachNumber v * Rpower x 0.25)
            / (Rpower (nwave.MachNumber v * nwave.MachNumber v - 1) 0.375
               * Rpower l 0.25) / 341.0).
Proof.
  intros Hv Hl Hx. destruct (mach_square_gt_1 v Hv) as [HM _].
  unfold nwave.nWaveDuration.
  rewrite square_finite, sub_finite.
  rewrite !power_finite by assumption.
  pose proof (Rpower_pos (nwave.MachNumber v * nwave.MachNumber v - 1) 0.375).
  pose proof (Rpower_pos l 0.25).
  assert (0 < Rpower (nwave.MachNumber v * nwave.MachNumber v - 1) 0.375
              * Rpower l 0.25) by nra.
  np_finite. reflexivity.
Qed.

Lemma div_lt_den (a x y : R) : 0 < a -> 0 < x < y -> a / y < a / x.
Proof.
  intros Ha [Hx Hxy]. unfold Rdiv. apply Rmult_lt_compat_l; [exact Ha |].
  apply Rinv_lt_contravar; nra.
Qed.

(** X14: for a supersonic projectile ([v > 341]) of positive diameter and
    length, the N-wave overpressure and duration at positive miss
    distances are finite and positive; a greater miss distance gives a
    smaller overpressure and a longer duration. *)
Theorem nWave_parameters_by_miss_distance (v d l x1 x2 : R) :
  341 < v -> 0 < d -> 0 < l -> 0 < x1 -> x1 < x2 ->
  exists p1 p2 T1 T2,
    nwave.nWaveOverPressure v d l (Finite x1) = Finite p1 /\
    nwave.nWaveOverPressure v d l (Finite x2) = Finite p2 /\
    nwave.nWaveDuration v d l (Finite x1) = Finite T1 /\
    nwave.nWaveDuration v d l (Finite x2) = Finite T2 /\
    0 < p2 < p1 /\ 0 < T1 < T2.
Proof.
  intros Hv Hd Hl Hx1 Hx12.
  assert (Hx2 : 0 < x2) by lra.
  destruct (mach_square_gt_1 v Hv) as [HM HM1].
  eexists _, _, _, _.
  split; [apply nWaveOverPressure_value; assumption |].
  split; [apply nWaveOverPressure_value; assumption |].
  split; [apply nWaveDuration_value; assumption |].
  split; [apply nWaveDuration_value; assumption |].
  set (M := nwave.MachNumber v) in *.
  pose proof (Rpower_pos (M * M - 1) 0.125) as Ha.
  pose proof (Rpower_pos (M * M - 1) 0.375) as Hb.
  pose proof (Rpower_pos l 0.25) as Hc.
  pose proof (Rpower_pos x1 0.75) as Hp1.
  pose proof (Rpower_pos x1 0.25) as Hq1.
  assert (Hp : Rpower x1 0.75 < Rpower x2 0.75)
    by (apply Rlt_Rpower_l; lra).
  assert (Hq : Rpower x1 0.25 < Rpower x2 0.25)
    by (apply Rlt_Rpower_l; lra).
  set (A := Rpower (M * M - 1) 0.125) in *.
  set (B := Rpower (M * M - 1) 0.375) in *.
  set (C := Rpower l 0.25) in *.
  set (P1 := Rpower x1 0.75) in *. set (P2 := Rpower x2 0.75) in *.
  set (Q1 := Rpower x1 0.25) in *. set (Q2 := Rpower x2 0.25) in *.
  assert (Hnum : 0 < 0.53 * d * A) by nra.
  assert (Hden1 : 0 < P1 * C) by nra.
  assert (Hden2 : 0 < P2 * C) by nra.
  assert (Hden12 : P1 * C < P2 * C) by nra.
  assert (HBC : 0 < B * C) by nra.
  split.
  - pose proof (div_lt_den (0.53 * d * A) (P1 * C) (P2 * C) Hnum
                  (conj Hden1 Hden12)) as Hdiv.
    pose proof (div_pos (0.53 * d * A) (P2 * C) Hnum Hden2) as Hpos.
    split; nra.
  - assert (HMQ1 : 0 < M * Q1) by nra.
    assert (HMQ : M * Q1 < M * Q2) by nra.
    assert (Hn1 : 0 < 1.82 * d * (M * Q1)) by nra.
    assert (Hn12 : 1.82 * d * (M * Q1) < 1.82 * d * (M * Q2)) by nra.
    pose proof (div_pos _ _ Hn1 HBC) as Hpos.
    assert (Hinv : 0 < / (B * C)) by (apply Rinv_0_lt_compat; exact HBC).
    assert (Hlt : 1.82 * d * (M * Q1) / (B * C) < 1.82 * d * (M * Q2) / (B * C)).
    { unfold Rdiv. apply Rmult_lt_compat_r; assumption. }
    split; lra.
Qed.

Lemma nWave_parameters_by_miss_distance_witness :
  exists p1 p2 T1 T2,
    nwave.nWaveOverPressure 900 0.009 0.03 (Finite 1) = Finite p1 /\
    nwave.nWaveOverPressure 900 0.009 0.03 (Finite 10) = Finite p2 /\
    nwave.nWaveDuration 900 0.009 0.03 (Finite 1) = Finite T1 /\
    nwave.nWaveDuration 900 0.009 0.03 (Finite 10) = Finite T2 /\
    0 < p2 < p1 /\ 0 < T1 < T2.
Proof.
  apply (nWave_parameters_by_miss_distance 900 0.009 0.03 1 10); lra.
Defined.

(** ** A microphone at zero miss distance *)

Lemma power_zero (y : R) : np.power (Finite 0) y = Finite 0.
Proof.
  unfold np.power. rewrite Rltb_false by lra. now rewrite Reqb_true.
Qed.

(** The chain of tests of [nWave] when the rise time and the duration are
    both zero. *)
Lemma nWave_shape_collapsed (pmax ta t : npfloat) :
  (if np.lt t ta then
     Finite 0
   else if np.le t (np.add ta (Finite 0)) && np.gt t ta then
     np.mul (np.div (np.sub t ta) (Finite 0)) pmax
   else if np.le t (np.sub (np.add ta (Finite 0)) (Finite 0))
           && np.gt t (np.add ta (Finite 0)) then
     np.mul
       (np.sub (Finite 1)
          (np.div (np.mul (Finite 2) (np.sub (np.sub t ta) (Finite 0)))
                  (np.sub (Finite 0) (np.mul (Finite 2) (Finite 0)))))
       pmax
   else if np.le t (np.add ta (Finite 0))
           && np.gt t (np.sub (np.add ta (Finite 0)) (Finite 0)) then
     np.mul
       (np.add (Finite (-1.0))
          (np.div (np.add (np.sub (np.sub t ta) (Finite 0)) (Finite 0))
                  (Finite 0)))
       pmax
   else
     Finite 0)
  = Finite 0.
Proof.
  destruct t as [t | | |], ta as [a | | |]; try reflexivity.
  np_finite.
  replace (a + 0 - 0) with (a + 0) by lra.
  destruct (Rlt_dec t a) as [H | H].
  - now rewrite Rltb_true by lra.
  - rewrite (Rltb_false t a) by lra.
    destruct (Rle_dec t (a + 0)) as [H' | H'].
    + assert (Heq : ~ a < t) by lra.
      rewrite !(Rltb_false a t) by lra.
      rewrite !(Rltb_false (a + 0) t) by lra.
      rewrite !andb_false_r. reflexivity.
    + rewrite !(Rleb_false t (a + 0)) by lra. reflexivity.
Qed.

(** X15: at miss distance 0 a supersonic projectile of positive diameter
    and length has an infinite overpressure, a zero rise time and a zero
    duration, and [nWave] returns 0 at every time: the N-wave vanishes
    without any error. *)
Theorem nWave_zero_miss_distance (xgun ngun xmic : vec3) (v d l : R)
  (t : npfloat) :
  341 < v -> 0 < d -> 0 < l ->
  nwave.nWaveOverPressure v d l (Finite 0) = PInf /\
  nwave.nWaveRiseTime PInf = Finite 0 /\
  nwave.nWaveDuration v d l (Finite 0) = Finite 0 /\
  nwave.nWave xgun ngun xmic v d l (Finite 0) t = Returns (Finite 0).
Proof.
  intros Hv Hd Hl. destruct (mach_square_gt_1 v Hv) as [HM HM1].
  pose proof (Rpower_pos (nwave.MachNumber v * nwave.MachNumber v - 1) 0.125) as Ha.
  pose proof (Rpower_pos (nwave.MachNumber v * nwave.MachNumber v - 1) 0.375) as Hb.
  pose proof (Rpower_pos l 0.25) as Hc.
  assert (Hp : nwave.nWaveOverPressure v d l (Finite 0) = PInf).
  { unfold nwave.nWaveOverPressure.
    rewrite square_finite, sub_finite, power_zero.
    rewrite !power_finite by assumption.
    rewrite !mul_finite.
    replace (0 * Rpower l 0.25) with 0 by lra.
    rewrite div_by_zero, signed_inf_pos by nra.
    unfold np.mul. apply signed_inf_pos. lra. }
  assert (Hr : nwave.nWaveRiseTime PInf = Finite 0) by reflexivity.
  assert (HT : nwave.nWaveDuration v d l (Finite 0) = Finite 0).
  { unfold nwave.nWaveDuration.
    rewrite square_finite, sub_finite, power_zero.
    rewrite !power_finite by assumption.
    assert (0 < Rpower (nwave.MachNumber v * nwave.MachNumber v - 1) 0.375
                * Rpower l 0.25) by nra.
    np_finite. f_equal. unfold Rdiv. lra. }
  split; [exact Hp | split; [exact Hr | split; [exact HT |]]].
  assert (Hv0 : v <> 0) by lra.
  destruct (nWaveTimeOfArrival_returns v xgun ngun xmic Hv0) as [ta Hta].
  unfold nwave.nWave. rewrite Hp, Hr, HT, Hta. unfold bind.
  f_equal. apply nWave_shape_collapsed.
Qed.

Lemma nWave_zero_miss_distance_witness :
  nwave.nWave (0, 0, 0) (0, 1, 0) (0, 5, 0) 900 0.009 0.03 (Finite 0) (Finite 0.01)
  = Returns (Finite 0).
Proof.
  apply (nWave_zero_miss_distance (0, 0, 0) (0, 1, 0) (0, 5, 0) 900 0.009 0.03
           (Finite 0.01)); lra.
Defined.

(** ** The amplitude of the N-wave *)

Lemma ratio_in_unit (a b : R) : 0 < b -> 0 <= a <= b -> 0 <= a / b <= 1.
Proof.
  intros Hb Ha.
  assert (Hq : a / b * b = a) by (field; lra).
  set (q := a / b) in *. split.
  - destruct (Rle_dec 0 q) as [H | H]; [exact H | exfalso; nra].
  - destruct (Rle_dec q 1) as [H | H]; [exact H | exfalso; nra].
Qed.

Lemma nwave_sample_bounds (pmax ta tr Td t : R) :
  0 < pmax -> 0 < tr -> 2 * tr < Td ->
  - pmax <= spec.nwave_sample pmax ta tr Td t <= pmax /\
  (t = ta + tr -> spec.nwave_sample pmax ta tr Td t = pmax) /\
  (t = ta + Td - tr -> spec.nwave_sample pmax ta tr Td t = - pmax) /\
  (t <= ta \/ ta + Td <= t -> spec.nwave_sample pmax ta tr Td t = 0).
Proof.
  intros Hp Htr HTd. unfold spec.nwave_sample.
  destruct (Rlt_dec t ta) as [H1 | H1].
  { rewrite Rltb_true by exact H1.
    repeat split; try lra. }
  rewrite Rltb_false by lra.
  destruct (Rle_dec t (ta + tr)) as [H2 | H2].
  { rewrite Rleb_true by exact H2.
    pose proof (ratio_in_unit (t - ta) tr Htr ltac:(lra)) as Hq.
    set (q := (t - ta) / tr) in *.
    split; [split; nra | split; [| split]].
    - intros ->. subst q. replace (ta + tr - ta) with tr by lra.
      unfold Rdiv. rewrite Rinv_r by lra. lra.
    - intros ->. lra.
    - intros [H | H]; [| lra].
      assert (t = ta) by lra. subst t q.
      replace (ta - ta) with 0 by lra. unfold Rdiv. lra. }
  rewrite Rleb_false by lra.
  destruct (Rle_dec t (ta + Td - tr)) as [H3 | H3].
  { rewrite Rleb_true by exact H3.
    pose proof (ratio_in_unit (t - ta - tr) (Td - 2 * tr) ltac:(lra) ltac:(lra))
      as Hq.
    assert (Heq : 2 * (t - ta - tr) / (Td - 2 * tr)
                  = 2 * ((t - ta - tr) / (Td - 2 * tr)))
      by (unfold Rdiv; lra).
    rewrite Heq. set (q := (t - ta - tr) / (Td - 2 * tr)) in *.
    split; [split; nra | split; [| split]].
    - intros ->. lra.
    - intros ->. subst q.
      replace (ta + Td - tr - ta - tr) with (Td - 2 * tr) by lra.
      unfold Rdiv. rewrite Rinv_r by lra. lra.
    - intros [H | H]; lra. }
  rewrite Rleb_false by lra.
  destruct (Rle_dec t (ta + Td)) as [H4 | H4].
  { rewrite Rleb_true by exact H4.
    pose proof (ratio_in_unit (t - ta - Td + tr) tr Htr ltac:(lra)) as Hq.
    set (q := (t - ta - Td + tr) / tr) in *.
    split; [split; nra | split; [| split]].
    - intros ->. lra.
    - intros ->. lra.
    - intros [H | H]; [lra |].
      assert (t = ta + Td) by lra. subst t q.
      replace (ta + Td - ta - Td + tr) with tr by lra.
      unfold Rdiv. rewrite Rinv_r by lra. lra. }
  rewrite Rleb_false by lra.
  repeat split; try lra.
Qed.

(** X16: when the peak, rise time and duration that [nWave] computes are
    finite with [pmax > 0], [tr > 0] and [Td > 2*tr], the value of [nWave]
    lies in [[-pmax, pmax]]; it is [pmax] at [ta + tr], [-pmax] at
    [ta + Td - tr], and 0 up to [ta] and from [ta + Td] on. *)
Theorem nWave_amplitude (xgun ngun xmic : vec3) (v d l : R) (x : npfloat)
  (pmax ta Td tr t : R) :
  nwave.nWaveOverPressure v d l x = Finite pmax ->
  nwave.nWaveTimeOfArrival v xgun ngun xmic = Returns (Finite ta) ->
  nwave.nWaveDuration v d l x = Finite Td ->
  nwave.nWaveRiseTime (Finite pmax) = Finite tr ->
  0 < pmax -> 0 < tr -> 2 * tr < Td ->
  exists w,
    nwave.nWave xgun ngun xmic v d l x (Finite t) = Returns (Finite w) /\
    - pmax <= w <= pmax /\
    (t = ta + tr -> w = pmax) /\
    (t = ta + Td - tr -> w = - pmax) /\
    (t <= ta \/ ta + Td <= t -> w = 0).
Proof.
  intros Hp Ha Hd Hr Hpmax Htr HTd.
  exists (spec.nwave_sample pmax ta tr Td t). split.
  - unfold nwave.nWave. rewrite Hp, Ha, Hd, Hr. simpl bind.
    f_equal. apply nWave_shape; assumption.
  - apply nwave_sample_bounds; assumption.
Qed.

Lemma nWave_amplitude_witness :
  exists w,
    nwave.nWave (0, 0, 0) (0, 0, 1) (1, 0, 100) (341 * sqrt 2) 1 1 (Finite 1)
      (Finite 0) = Returns (Finite w) /\
    - 53530 <= w <= 53530.
Proof.
  pose proof sqrt2_gt_1 as Hs.
  assert (H1 : 0 < 53530) by lra.
  assert (H2 : 0 < 68.0e-9 / 341.0 * 101.0e3 / 53530) by lra.
  assert (H3 : 2 * (68.0e-9 / 341.0 * 101.0e3 / 53530) < 1.82 * sqrt 2 / 341)
    by lra.
  destruct (nWave_amplitude (0, 0, 0) (0, 0, 1) (1, 0, 100) (341 * sqrt 2) 1 1
              (Finite 1) _ _ _ _ 0
              overpressure_sqrt2 timeOfArrival_sqrt2 duration_sqrt2
              riseTime_sqrt2 H1 H2 H3) as (w & Hw & Hb & _).
  exists w. split; assumption.
Defined.

(** ** The phases of the Friedlander wave *)

Lemma exp_neg_le_1 (s : R) : 0 <= s -> exp (- s) <= 1.
Proof.
  intros [Hs | <-].
  - rewrite <- exp_0. left. apply exp_increasing. lra.
  - rewrite Ropp_0, exp_0. lra.
Qed.

(** [(1 - s) * exp (- s)] stays within [[-1, 1]] for [s >= 0]. *)
Lemma decay_profile_bounds (s : R) :
  0 <= s -> -1 <= (1 - s) * exp (- s) <= 1.
Proof.
  intros Hs.
  pose proof (exp_pos (- s)) as Hpos.
  pose proof (exp_neg_le_1 s Hs) as Hle.
  pose proof (exp_ineq1_le s) as Hineq.
  assert (Hinv : exp (- s) * exp s = 1).
  { rewrite <- exp_plus. replace (- s + s) with 0 by lra. apply exp_0. }
  set (e := exp (- s)) in *. set (E := exp s) in *.
  split.
  - assert ((s - 1) * e <= E * e) by (apply Rmult_le_compat_r; lra).
    nra.
  - destruct (Rle_dec s 1) as [H | H]; nra.
Qed.

(** X17: for [tau > 0] and a positive peak [Pp], [friedlander] is positive
    from [ta] up to [ta + tau], zero at [ta + tau] and negative after it,
    and its magnitude never exceeds its value [Pp*pinf*ainf] at [ta]. *)
Theorem friedlander_phases (t ta tau Pp : R) :
  0 < tau -> 0 < Pp ->
  exists p,
    muzzleblast.friedlander (Finite t) (Finite ta) (Finite tau) (Finite Pp)
    = Finite p /\
    (ta <= t < ta + tau -> 0 < p) /\
    (t = ta + tau -> p = 0) /\
    (ta + tau < t -> p < 0) /\
    Rabs p <= Pp * 101.0e3 * 341.0.
Proof.
  intros Htau HPp.
  destruct (Rlt_dec t ta) as [Hb | Ha].
  - exists 0. rewrite friedlander_before by exact Hb.
    split; [reflexivity |].
    repeat split; try lra. rewrite Rabs_R0. nra.
  - assert (Hge : ta <= t) by lra.
    rewrite friedlander_from by lra.
    eexists. split; [reflexivity |].
    assert (Hs : 0 <= (t - ta) / tau).
    { unfold Rdiv. apply Rmult_le_pos; [lra |].
      apply Rlt_le, Rinv_0_lt_compat. exact Htau. }
    assert (Hst : (t - ta) / tau * tau = t - ta) by (field; lra).
    replace (- (t - ta) / tau) with (- ((t - ta) / tau)) by (unfold Rdiv; lra).
    pose proof (decay_profile_bounds _ Hs) as Hbd.
    pose proof (exp_pos (- ((t - ta) / tau))) as He.
    set (s := (t - ta) / tau) in *. set (e := exp (- s)) in *.
    assert (Hc : 0 < Pp * 101.0e3 * 341.0) by nra.
    replace (Pp * (1 - s) * e * 101.0e3 * 341.0)
      with (Pp * 101.0e3 * 341.0 * ((1 - s) * e)) by ring.
    set (c := Pp * 101.0e3 * 341.0) in *.
    split; [| split; [| split]].
    + intros [_ Hlt].
      assert (Hs1 : s < 1).
      { destruct (Rlt_dec s 1) as [H | H]; [exact H | exfalso; nra]. }
      assert (0 < (1 - s) * e) by nra. nra.
    + intros Heq.
      assert (Hs1 : s = 1).
      { assert (Hm : (s - 1) * tau = 0) by lra.
        apply Rmult_integral in Hm. destruct Hm; lra. }
      rewrite Hs1. lra.
    + intros Hgt.
      assert (Hs1 : 1 < s).
      { destruct (Rlt_dec 1 s) as [H | H]; [exact H | exfalso; nra]. }
      assert ((1 - s) * e < 0) by nra. nra.
    + rewrite Rabs_mult, (Rabs_pos_eq c) by lra.
      assert (Rabs ((1 - s) * e) <= 1) by (apply Rabs_le; lra).
      nra.
Qed.

Lemma friedlander_phases_witness :
  exists p,
    muzzleblast.friedlander (Finite 3) (Finite 1) (Finite 2) (Finite 1)
    = Finite p /\
    (1 <= 3 < 1 + 2 -> 0 < p) /\
    (3 = 1 + 2 -> p = 0) /\
    (1 + 2 < 3 -> p < 0) /\
    Rabs p <= 1 * 101.0e3 * 341.0.
Proof. apply (friedlander_phases 3 1 2 1); lra. Defined.

(** ** The time grid *)

Lemma linspace_grid (stop num : R) :
  2 <= num ->
  let n := Z.to_nat (Zfloor num) in
  exists t,
    np.linspace 0 stop num = Returns t /\
    length t = n /\ (2 <= n)%nat /\
    (forall i, (i < n)%nat -> nth i t NaN = Finite (INR i * (stop / INR (n - 1)))) /\
    nth 0 t NaN = Finite 0 /\
    nth (n - 1) t NaN = Finite stop.
Proof.
  intros Hnum n.
  assert (H0 : 0 <= num) by lra.
  destruct (int_nonneg num H0) as [Hi Hz].
  assert (Hn2 : (2 <= n)%nat).
  { subst n. assert (2 <= Zfloor num)%Z by (apply Zfloor_lub; simpl; lra). lia. }
  assert (Hpos : 0 < INR (n - 1)) by (apply lt_0_INR; lia).
  assert (Hnth : forall i, (i < n)%nat ->
            nth i (map (fun i => Finite (0 + INR i * ((stop - 0) / INR (n - 1))))
                       (seq 0 n)) NaN
            = Finite (INR i * (stop / INR (n - 1)))).
  { intros i Hi'.
    set (f := fun i => Finite (0 + INR i * ((stop - 0) / INR (n - 1)))).
    rewrite (nth_indep (map f (seq 0 n)) NaN (f 0%nat))
      by (now rewrite length_map, length_seq).
    rewrite (map_nth f), seq_nth by exact Hi'. unfold f. simpl plus.
    f_equal. unfold Rdiv. lra. }
  eexists. split.
  - unfold np.linspace. rewrite Hi.
    destruct (Z.ltb_spec (Zfloor num) 0) as [Hneg | _]; [lia |].
    fold n. destruct (Nat.leb_spec n 1) as [Hle | _]; [lia |]. reflexivity.
  - split; [now rewrite length_map, length_seq |].
    split; [exact Hn2 |].
    split; [exact Hnth |].
    split.
    + rewrite Hnth by lia. simpl INR. f_equal. lra.
    + rewrite Hnth by lia. f_equal. field. lra.
Qed.

(** X18: when [duration*Fs >= 2] the time grid that [calculatemuzzleblast]
    returns has [n = floor(duration*Fs)] instants [i*duration/(n-1)]: it
    starts at 0 and ends exactly at [duration]. *)
Theorem generator_time_grid (gammae pe ue Ae : R) (mu theta r : npfloat)
  (d Lm Vp duration Fs : R) :
  gammae <> 1 -> 2 <= duration * Fs ->
  let n := Z.to_nat (Zfloor (duration * Fs)) in
  exists Pmb t,
    muzzleblast.calculatemuzzleblast gammae pe ue Ae mu theta r d Lm Vp
      duration Fs = Returns (Pmb, t) /\
    length t = n /\
    (forall i, (i < n)%nat ->
       nth i t NaN = Finite (INR i * (duration / INR (n - 1)))) /\
    nth 0 t NaN = Finite 0 /\
    nth (n - 1) t NaN = Finite duration.
Proof.
  intros Hg Hnum n.
  destruct (linspace_grid duration (duration * Fs) Hnum)
    as (t & Ht & Hlen & _ & Hnth & Hfirst & Hlast).
  destruct (scalinglength_returns gammae (util.convertPressureToPascals pe)
              ue Ae mu theta Hg) as [l [lp Hs]].
  eexists _, t. split.
  - unfold muzzleblast.calculatemuzzleblast. rewrite Ht, Hs. unfold bind.
    reflexivity.
  - split; [exact Hlen | split; [exact Hnth | split; assumption]].
Qed.

Lemma generator_time_grid_witness :
  exists Pmb t,
    muzzleblast.calculatemuzzleblast 1.24 2000 900 1 (Finite 0) (Finite 0)
      (Finite 1) 1 1 900 1 3 = Returns (Pmb, t) /\
    length t = Z.to_nat (Zfloor (1 * 3)) /\
    (forall i, (i < Z.to_nat (Zfloor (1 * 3)))%nat ->
       nth i t NaN = Finite (INR i * (1 / INR (Z.to_nat (Zfloor (1 * 3)) - 1)))) /\
    nth 0 t NaN = Finite 0 /\
    nth (Z.to_nat (Zfloor (1 * 3)) - 1) t NaN = Finite 1.
Proof.
  apply (generator_time_grid 1.24 2000 900 1 (Finite 0) (Finite 0) (Finite 1)
           1 1 900 1 3); lra.
Defined.

(** ** The N-wave generator at zero velocity *)

Lemma linspace_empty (stop num : R) :
  0 <= num < 1 -> np.linspace 0 stop num = Returns [].
Proof.
  intros [H0 H1]. destruct (int_nonneg num H0) as [Hi _].
  unfold np.linspace. rewrite Hi.
  replace (Zfloor num) with 0%Z by (symmetry; apply Zfloor_eq; simpl; lra).
  reflexivity.
Qed.

Lemma nWave_zero_velocity (xgun ngun xmic : vec3) (d l : R) (x t : npfloat) :
  nwave.nWave xgun ngun xmic 0 d l x t = Raises ZeroDivisionError.
Proof.
  unfold nwave.nWave, nwave.nWaveTimeOfArrival, nwave.MachNumber, nwave.coneAngle.
  rewrite Reqb_true by lra. reflexivity.
Qed.

(** X19: at projectile velocity 0, [calculateNWave] returns an empty
    signal when the grid has no sample ([0 <= dur*Fs < 1]) and raises
    [ZeroDivisionError] as soon as it has one. *)
Theorem calculateNWave_zero_velocity (xgun ngun xmic : vec3) (d l : R)
  (x : npfloat) (dur Fs : R) :
  (0 <= dur * Fs < 1 ->
   nwave.calculateNWave xgun ngun xmic 0 d l x dur Fs = Returns []) /\
  (1 <= dur * Fs ->
   nwave.calculateNWave xgun ngun xmic 0 d l x dur Fs
   = Raises ZeroDivisionError).
Proof.
  unfold nwave.calculateNWave. split.
  - intros H. now rewrite linspace_empty.
  - intros H. assert (H0 : 0 <= dur * Fs) by lra.
    destruct (linspace_returns 0 dur (dur * Fs) H0) as [t [Ht Hlen]].
    rewrite Ht. unfold bind at 1.
    assert (Hz : (1 <= Zfloor (dur * Fs))%Z) by (apply Zfloor_lub; simpl; lra).
    destruct t as [| t0 t]; [simpl in Hlen; lia |].
    simpl mapM. rewrite nWave_zero_velocity. reflexivity.
Qed.

Lemma calculateNWave_zero_velocity_witness :
  nwave.calculateNWave (0, 0, 0) (0, 0, 1) (0, 0, 100) 0 1 1 (Finite 1) (1 / 2) 1
  = Returns [] /\
  nwave.calculateNWave (0, 0, 0) (0, 0, 1) (0, 0, 100) 0 1 1 (Finite 1) 2 1
  = Raises ZeroDivisionError.
Proof.
  split.
  - apply (calculateNWave_zero_velocity (0, 0, 0) (0, 0, 1) (0, 0, 100) 1 1
             (Finite 1) (1 / 2) 1). lra.
  - apply (calculateNWave_zero_velocity (0, 0, 0) (0, 0, 1) (0, 0, 100) 1 1
             (Finite 1) 2 1). lra.
Defined.

(** ** The composer at its edges *)

(** X20: with exit velocity 0 (and a non-negative sample count) the
    composer raises [ZeroDivisionError]: the cone angle is computed before
    the supersonic test. *)
Theorem composer_zero_velocity (xmic xgun ngun : vec3)
  (bulletDiam bulletLen barrelLength pexit duration Fs : R) :
  0 <= duration * Fs ->
  process._getAnechoicGunshot xmic xgun ngun bulletDiam bulletLen barrelLength
    pexit 0 duration Fs = Raises ZeroDivisionError.
Proof.
  intros Hn. assert (Hgam : 1.24 <> 1) by lra.
  unfold process._getAnechoicGunshot.
  destruct (util.computeGeometry xmic xgun) as [r theta].
  destruct (calculatemuzzleblast_returns 1.24 pexit 0
              ((bulletDiam / 2) ^ 2 * np.pi)
              (muzzleblast.momentumindex (nwave.MachNumber 0) pexit 1.24)
              theta r bulletDiam barrelLength 0 duration Fs Hn Hgam)
    as (Pmb & t & l & lp & _ & _ & Hblast & _).
  rewrite Hblast. unfold bind at 1.
  unfold nwave.coneAngle. rewrite Reqb_true by reflexivity. reflexivity.
Qed.

Lemma composer_zero_velocity_witness :
  process._getAnechoicGunshot (0, 0, 100) (0, 0, 0) (0, 0, 1)
    0.009 0.03 0.3 2000 0 0.05 48000 = Raises ZeroDivisionError.
Proof.
  apply (composer_zero_velocity (0, 0, 100) (0, 0, 0) (0, 0, 1)
           0.009 0.03 0.3 2000 0.05 48000). lra.
Defined.

(** ** Coincident gun and microphone *)

Lemma computeGeometry_same (x : vec3) :
  util.computeGeometry x x = (Finite 0, NaN).
Proof.
  unfold util.computeGeometry. rewrite vsub_self. simpl dot.
  replace (0 * 0 + 0 * 0 + 0 * 0) with 0 by lra.
  replace (0 * 0 + 0 * 1.0 + 0 * 0) with 0 by lra.
  rewrite sqrt_finite, sqrt_0 by lra. now rewrite div_zero_zero.
Qed.

Lemma div_nan_r (a : npfloat) : np.div a NaN = NaN.
Proof. now destruct a. Qed.

Lemma lt_nan_r (a : npfloat) : np.lt a NaN = false.
Proof. now destruct a. Qed.

Lemma scalinglength_nan_angle (gammae pe ue Ae : R) (mu : npfloat) :
  gammae <> 1 ->
  exists l, muzzleblast.scalinglength gammae pe ue Ae mu NaN = Returns (l, NaN).
Proof.
  intros H. unfold muzzleblast.scalinglength.
  rewrite Reqb_false by (intros H0; apply H; lra).
  eexists. f_equal. f_equal.
  change (np.cos NaN) with NaN. rewrite (mul_nan_r mu).
  change (np.add NaN ?b) with NaN.
  now rewrite mul_nan_r.
Qed.

Lemma timeOfArrival_nan (r : npfloat) : muzzleblast.timeOfArrival r NaN = NaN.
Proof. reflexivity. Qed.

Lemma positivePhaseDuration_nan (r l : npfloat) (L Vp : R) :
  muzzleblast.positivePhaseDuration r NaN l L Vp = NaN.
Proof.
  unfold muzzleblast.positivePhaseDuration. now rewrite mul_nan_r.
Qed.

Lemma peakOverpressure_nan (r : npfloat) : muzzleblast.peakOverpressure r NaN = NaN.
Proof.
  unfold muzzleblast.peakOverpressure. rewrite div_nan_r. reflexivity.
Qed.

Lemma friedlander_nan (t : npfloat) : muzzleblast.friedlander t NaN NaN NaN = NaN.
Proof.
  unfold muzzleblast.friedlander. rewrite lt_nan_r. reflexivity.
Qed.

Lemma map_constant {A B : Type} (f : A -> B) (b : B) (l : list A) :
  (forall x, f x = b) -> map f l = repeat b (length l).
Proof.
  intros H. induction l as [| x l IH]; [reflexivity |].
  simpl. now rewrite H, IH.
Qed.

(** X21: when the microphone is at the gun position the composer raises
    nothing: it returns a muzzle-blast signal and a total signal of [nan]
    samples and an N-wave signal of zeros, each of [floor(duration*Fs)]
    samples. *)
Theorem composer_coincident_positions (x ngun : vec3)
  (bulletDiam bulletLen barrelLength pexit uexit duration Fs : R) :
  0 <= duration * Fs -> uexit <> 0 ->
  let n := Z.to_nat (Zfloor (duration * Fs)) in
  process._getAnechoicGunshot x x ngun bulletDiam bulletLen barrelLength
    pexit uexit duration Fs
  = Returns (repeat NaN n, repeat NaN n, np.zeros n).
Proof.
  intros Hn Hu n. assert (Hgam : 1.24 <> 1) by lra.
  destruct (linspace_returns 0 duration (duration * Fs) Hn) as [t [Ht Hlen]].
  destruct (scalinglength_nan_angle 1.24 (util.convertPressureToPascals pexit)
              uexit ((bulletDiam / 2) ^ 2 * np.pi)
              (muzzleblast.momentumindex (nwave.MachNumber uexit) pexit 1.24)
              Hgam) as [l Hs].
  unfold process._getAnechoicGunshot. rewrite computeGeometry_same.
  unfold muzzleblast.calculatemuzzleblast. rewrite Ht. unfold bind at 2.
  rewrite Hs. unfold bind at 2.
  rewrite timeOfArrival_nan, positivePhaseDuration_nan, peakOverpressure_nan.
  unfold muzzleblast.muzzleblast.
  rewrite (map_constant _ NaN t friedlander_nan).
  unfold bind at 1. rewrite coneAngle_returns by exact Hu. unfold bind.
  change (np.lt NaN ?b) with false. rewrite andb_false_r.
  rewrite repeat_length, Hlen. reflexivity.
Qed.

Lemma composer_coincident_positions_witness :
  process._getAnechoicGunshot (1, 2, 3) (1, 2, 3) (0, 0, 1)
    0.009 0.03 0.3 2000 900 (11 / 4) 1
  = Returns (repeat NaN (Z.to_nat (Zfloor (11 / 4 * 1))),
             repeat NaN (Z.to_nat (Zfloor (11 / 4 * 1))),
             np.zeros (Z.to_nat (Zfloor (11 / 4 * 1)))).
Proof.
  apply (composer_coincident_positions (1, 2, 3) (0, 0, 1)
           0.009 0.03 0.3 2000 900 (11 / 4) 1); lra.
Defined.

(** ** The miss distance the composer uses *)

Lemma norm_unit_y : spec.norm (0, 1, 0) = 1.
Proof.
  unfold spec.norm. simpl dot.
  replace (0 * 0 + 1 * 1 + 0 * 0) with 1 by lra. apply sqrt_1.
Qed.

(** X22: for distinct positions, the miss distance [r*sin(theta)] that the
    composer hands to the N-wave model is the miss distance that
    [missDistance] computes for the barrel direction [(0, 1, 0)], whatever
    the barrel direction of the scene is. *)
Theorem composer_miss_distance (xmic xgun : vec3) :
  xmic <> xgun ->
  np.mul (fst (util.computeGeometry xmic xgun))
         (np.sin (snd (util.computeGeometry xmic xgun)))
  = fst (nwave.missDistance xgun (0, 1, 0) xmic).
Proof.
  intros Hne.
  assert (Hm : vsub xmic xgun <> (0, 0, 0))
    by (intros H; apply Hne, vsub_zero, H).
  pose proof (norm_pos _ Hm) as Hn.
  pose proof (norm_sqr (vsub xmic xgun)) as Hsq.
  pose proof (component_over_norm _ Hm) as Hc.
  assert (Hy : (0, 1, 0) <> (0, 0, 0)) by (intros H; inversion H; lra).
  rewrite (missDistance_finite xgun (0, 1, 0) xmic Hy). cbv zeta. simpl fst.
  unfold util.computeGeometry. simpl fst. simpl snd.
  rewrite sqrt_finite by apply dot_self_nonneg.
  fold (spec.norm (vsub xmic xgun)).
  rewrite div_finite by lra. rewrite arccos_finite by exact Hc.
  rewrite sin_finite, mul_finite. f_equal.
  rewrite sin_acos by exact Hc. unfold Rsqr.
  assert (Hp : projection (vsub xmic xgun) (0, 1, 0)
               = dot (vsub xmic xgun) (0, 1.0, 0)).
  { unfold projection. rewrite norm_unit_y.
    destruct (vsub xmic xgun) as [[m0 m1] m2]. simpl. lra. }
  rewrite Hp, <- Hsq.
  set (nrm := spec.norm (vsub xmic xgun)) in *.
  set (y := dot (vsub xmic xgun) (0, 1.0, 0)) in *.
  assert (Hq : y / nrm * nrm = y).
  { unfold Rdiv. rewrite Rmult_assoc, Rinv_l by lra. lra. }
  set (q := y / nrm) in *.
  rewrite <- (sqrt_square nrm) at 1 by lra.
  rewrite <- sqrt_mult_alt by nra.
  f_equal. nra.
Qed.

Lemma composer_miss_distance_witness :
  np.mul (fst (util.computeGeometry (3, 4, 0) (0, 0, 0)))
         (np.sin (snd (util.computeGeometry (3, 4, 0) (0, 0, 0))))
  = fst (nwave.missDistance (0, 0, 0) (0, 1, 0) (3, 4, 0)).
Proof.
  apply (composer_miss_distance (3, 4, 0) (0, 0, 0)).
  intros H. inversion H. lra.
Defined.

(** ** An N-wave without an arrival time *)

Lemma nWave_nan_arrival (xgun ngun xmic : vec3) (v d l : R) (x t : npfloat) :
  nwave.nWaveTimeOfArrival v xgun ngun xmic = Returns NaN ->
  nwave.nWave xgun ngun xmic v d l x t = Returns (Finite 0).
Proof.
  intros H. unfold nwave.nWave. rewrite H. unfold bind.
  destruct t; reflexivity.
Qed.

(** X23: with a zero barrel direction nothing is raised: [missDistance]
    returns [(nan, nan)], the arrival time of the N-wave is [nan] (for a
    non-zero velocity) and [nWave] returns 0 at every time. *)
Theorem nWave_zero_direction (xgun xmic : vec3) (v d l : R) (x t : npfloat) :
  v <> 0 ->
  nwave.missDistance xgun (0, 0, 0) xmic = (NaN, NaN) /\
  nwave.nWaveTimeOfArrival v xgun (0, 0, 0) xmic = Returns NaN /\
  nwave.nWave xgun (0, 0, 0) xmic v d l x t = Returns (Finite 0).
Proof.
  intros Hv.
  assert (Hta : nwave.nWaveTimeOfArrival v xgun (0, 0, 0) xmic = Returns NaN).
  { unfold nwave.nWaveTimeOfArrival.
    rewrite coneAngle_returns
      by (unfold nwave.MachNumber; intros H0; apply Hv; lra).
    unfold bind. rewrite missDistance_zero_direction.
    rewrite mul_nan_r. reflexivity. }
  split; [apply missDistance_zero_direction | split; [exact Hta |]].
  apply nWave_nan_arrival. exact Hta.
Qed.

Lemma nWave_zero_direction_witness :
  nwave.nWave (0, 0, 0) (0, 0, 0) (1, 0, 100) 900 0.009 0.03 (Finite 1)
    (Finite 0.2) = Returns (Finite 0).
Proof.
  apply (nWave_zero_direction (0, 0, 0) (1, 0, 100) 900 0.009 0.03 (Finite 1)
           (Finite 0.2)). lra.
Defined.

Lemma nWaveTimeOfArrival_subsonic (v : R) (xgun ngun xmic : vec3) :
  v <> 0 -> -341 < v < 341 ->
  nwave.nWaveTimeOfArrival v xgun ngun xmic = Returns NaN.
Proof.
  intros Hne Hsub. unfold nwave.nWaveTimeOfArrival, nwave.MachNumber.
  assert (HM : v / 341.0 <> 0) by (intros H; apply Hne; lra).
  assert (HMb : -1 < v / 341.0 < 1) by lra.
  rewrite (coneAngle_subsonic _ HMb HM). unfold bind.
  destruct (nwave.missDistance xgun ngun xmic) as [dmis dlin].
  reflexivity.
Qed.

(** X24: for a non-zero subsonic velocity (below 341 m/s in absolute
    value) and a non-negative sample count, the N-wave generator returns a
    signal of [floor(dur*Fs)] zeros. *)
Theorem calculateNWave_subsonic (xgun ngun xmic : vec3) (v d l : R)
  (x : npfloat) (dur Fs : R) :
  v <> 0 -> -341 < v < 341 -> 0 <= dur * Fs ->
  nwave.calculateNWave xgun ngun xmic v d l x dur Fs
  = Returns (np.zeros (Z.to_nat (Zfloor (dur * Fs)))).
Proof.
  intros Hne Hsub Hn.
  pose proof (nWaveTimeOfArrival_subsonic v xgun ngun xmic Hne Hsub) as Hta.
  destruct (linspace_returns 0 dur (dur * Fs) Hn) as [t [Ht Hlen]].
  unfold nwave.calculateNWave. rewrite Ht. unfold bind at 1.
  rewrite (mapM_total (fun ti => nwave.nWave xgun ngun xmic v d l x ti)
             (fun _ => Finite 0) t)
    by (intros ti; apply nWave_nan_arrival; exact Hta).
  unfold bind. f_equal. rewrite <- Hlen. unfold np.zeros.
  clear. induction t as [| a t IH]; [reflexivity |].
  simpl. now rewrite IH.
Qed.

Lemma calculateNWave_subsonic_witness :
  nwave.calculateNWave (0, 0, 0) (0, 0, 1) (1, 0, 100) 200 0.009 0.03
    (Finite 1) 0.05 48000
  = Returns (np.zeros (Z.to_nat (Zfloor (0.05 * 48000)))).
Proof.
  apply (calculateNWave_subsonic (0, 0, 0) (0, 0, 1) (1, 0, 100) 200 0.009 0.03
           (Finite 1) 0.05 48000); lra.
Defined.

(** ** The barrel direction and the muzzle blast *)

(** X25: the muzzle-blast signal the composer returns does not depend on
    the barrel direction: for a non-negative sample count and a non-zero
    exit velocity, one and the same muzzle-blast array is returned for every
    barrel direction. *)
Theorem muzzle_blast_ignores_barrel_direction (xmic xgun : vec3)
  (bulletDiam bulletLen barrelLength pexit uexit duration Fs : R) :
  0 <= duration * Fs -> uexit <> 0 ->
  exists Pmb,
    forall ngun,
    exists sig Pnw,
      process._getAnechoicGunshot xmic xgun ngun bulletDiam bulletLen
        barrelLength pexit uexit duration Fs = Returns (sig, Pmb, Pnw).
Proof.
  intros Hn Hu. assert (Hgam : 1.24 <> 1) by lra.
  destruct (util.computeGeometry xmic xgun) as [r theta] eqn:HG.
  destruct (calculatemuzzleblast_returns 1.24 pexit uexit
              ((bulletDiam / 2) ^ 2 * np.pi)
              (muzzleblast.momentumindex (nwave.MachNumber uexit) pexit 1.24)
              theta r bulletDiam barrelLength uexit duration Fs Hn Hgam)
    as (Pmb & t & l & lp & _ & _ & Hblast & _).
  exists Pmb. intros ngun.
  destruct (composer_outcome xmic xgun ngun bulletDiam bulletLen barrelLength
              pexit uexit duration Fs r theta Hn Hu HG)
    as (Pmb' & t' & thM & Pnw & Hblast' & _ & _ & Hout).
  rewrite Hblast in Hblast'. injection Hblast' as <- <-.
  destruct (gate uexit theta thM).
  - destruct Hout as [_ Hout]. eexists _, _. exact Hout.
  - destruct Hout as [_ Hout]. eexists _, _. exact Hout.
Qed.

Lemma muzzle_blast_ignores_barrel_direction_witness :
  exists Pmb,
    forall ngun,
    exists sig Pnw,
      process._getAnechoicGunshot (0, 0, 100) (0, 0, 0) ngun 0.009 0.03 0.3
        2000 900 0.05 48000 = Returns (sig, Pmb, Pnw).
Proof.
  apply (muzzle_blast_ignores_barrel_direction (0, 0, 100) (0, 0, 0)
           0.009 0.03 0.3 2000 900 0.05 48000); lra.
Defined.
